(** * SSD1306lite: the bit-banged two-wire link and the display operations

    A shallow embedding of [ssd1306lite.cpp] / [ssd1306lite.h].  The driver
    owns one flag ([fInvertData]) and two pins of the AVR port C.  Every
    method returns [void], so a method is a function from machine state to
    machine state; the sequence of pin writes it performs is kept in the
    state as the history of the link.

    Integers are [Z].  A [uint8_t] variable holds a value in 0..255 and every
    assignment to one that can leave that range is written with [u8].  [int]
    and [unsigned] are 16 bits wide on the AVR; the [int] expressions of the
    driver ([startRow + rows], [c * 16 + 8 + ix], [(row - startRow) *
    imageColumns], ...) stay far below 2^15 for [uint8_t] operands, so they
    are plain integer expressions here. *)

From Equations Require Import Equations.
From Stdlib Require Import ZArith List Bool String Ascii Lia.
Import ListNotations.

Local Open Scope Z_scope.

(* ===================================================================== *)
(** ** Machine integers *)

(** Conversion of an [int] value to [uint8_t]. *)
Definition u8 (x : Z) : Z := x mod 256.

(** Iterations left to a counter [i] that runs up to [limit]: the measure
    under which the counted loops of the driver terminate. *)
Definition below (limit i : Z) : nat := Z.to_nat (limit - i).
Arguments below : simpl never.

(* ===================================================================== *)
(** ** The two signal lines *)

(** One entry of the link history for each call of the six [inline]
    pin functions of the source. *)
Inductive pin_write : Type :=
| W_SCL_MODE_OUTPUT
| W_SDA_MODE_OUTPUT
| W_SCL_high
| W_SCL_low
| W_SDA_high
| W_SDA_low.

(** Bit numbers of the two pins inside port C ([PC5], [PC4] of the AVR
    device header; Arduino pins A5 and A4). *)
Definition SCL_PIN : Z := 5.
Definition SDA_PIN : Z := 4.

(** The registers the driver touches, the driver object's only field, and
    the history of pin writes. *)
Record state : Type := mkState {
  DDRC : Z;
  PORTC : Z;
  fInvertData : bool;
  wire : list pin_write
}.

Definition set_DDRC (v : Z) (s : state) : state :=
  mkState v (PORTC s) (fInvertData s) (wire s).
Definition set_PORTC (v : Z) (s : state) : state :=
  mkState (DDRC s) v (fInvertData s) (wire s).
Definition set_fInvertData (b : bool) (s : state) : state :=
  mkState (DDRC s) (PORTC s) b (wire s).
Definition log (w : pin_write) (s : state) : state :=
  mkState (DDRC s) (PORTC s) (fInvertData s) (wire s ++ [w]).

(** A method of the driver. *)
Definition cmd : Type := state -> state.
Definition skip : cmd := fun s => s.
Definition seq (a b : cmd) : cmd := fun s => b (a s).
Notation "a ;; b" := (seq a b) (at level 61, right associativity).

(** [REG |= (1 << PIN)] and [REG &= ~(1 << PIN)] on an 8-bit register. *)
Definition reg_set (pin reg : Z) : Z := u8 (Z.lor reg (Z.shiftl 1 pin)).
Definition reg_clear (pin reg : Z) : Z := u8 (Z.land reg (Z.lnot (Z.shiftl 1 pin))).

Definition SCL_MODE_OUTPUT : cmd :=
  fun s => log W_SCL_MODE_OUTPUT (set_DDRC (reg_set SCL_PIN (DDRC s)) s).
Definition SDA_MODE_OUTPUT : cmd :=
  fun s => log W_SDA_MODE_OUTPUT (set_DDRC (reg_set SDA_PIN (DDRC s)) s).
Definition SCL_high : cmd :=
  fun s => log W_SCL_high (set_PORTC (reg_set SCL_PIN (PORTC s)) s).
Definition SCL_low : cmd :=
  fun s => log W_SCL_low (set_PORTC (reg_clear SCL_PIN (PORTC s)) s).
Definition SDA_high : cmd :=
  fun s => log W_SDA_high (set_PORTC (reg_set SDA_PIN (PORTC s)) s).
Definition SDA_low : cmd :=
  fun s => log W_SDA_low (set_PORTC (reg_clear SDA_PIN (PORTC s)) s).

(** Level of the two lines as driven by port C. *)
Definition scl_level (s : state) : bool := Z.testbit (PORTC s) SCL_PIN.
Definition sda_level (s : state) : bool := Z.testbit (PORTC s) SDA_PIN.

(* ===================================================================== *)
(** ** Constants of the driver *)

Definition SSD1306_ADDR : Z := 0x78.
Definition SSD1306_CTL_COMMAND : Z := 0x00.
Definition SSD1306_CTL_DATA : Z := 0x40.

Definition NUM_ROWS : Z := 8.
Definition NUM_COLUMNS : Z := 128.

Definition CMD_SET_COLUMN_LO : Z := 0x00.
Definition CMD_SET_COLUMN_HI : Z := 0x10.
Definition CMD_ADDRESS_MODE : Z := 0x20.
Definition CMD_SET_START_LINE : Z := 0x40.
Definition CMD_SET_CONTRAST : Z := 0x81.
Definition CMD_CHARGE_PUMP : Z := 0x8d.
Definition CMD_HORIZONTAL_REMAP : Z := 0xa1.
Definition CMD_RAM_ENABLE : Z := 0xa4.
Definition CMD_INVERT_OFF : Z := 0xa6.
Definition CMD_INVERT_ON : Z := 0xa7.
Definition CMD_MULTIPLEX_RATIO : Z := 0xa8.
Definition CMD_DISPLAY_OFF : Z := 0xae.
Definition CMD_DISPLAY_ON : Z := 0xaf.
Definition CMD_SET_ROW : Z := 0xb0.
Definition CMD_VERTICAL_REMAP : Z := 0xc8.
Definition CMD_DISPLAY_OFFSET : Z := 0xD3.
Definition CMD_DIVIDE_AND_FREQ : Z := 0xD5.
Definition CMD_PRE_CHARGE_PERIOD : Z := 0xD9.
Definition CMD_COM_PIN_CONFIG : Z := 0xDA.
Definition CMD_VCOMH_LEVEL : Z := 0xDB.

Definition initCommands : list Z :=
  [ CMD_DISPLAY_OFF;
    CMD_MULTIPLEX_RATIO; 63;
    CMD_DISPLAY_OFFSET; 0;
    CMD_SET_START_LINE;
    CMD_HORIZONTAL_REMAP;
    CMD_VERTICAL_REMAP;
    CMD_ADDRESS_MODE; 2;
    CMD_SET_CONTRAST; 127;
    CMD_INVERT_OFF;
    CMD_RAM_ENABLE;
    CMD_DIVIDE_AND_FREQ; 0xF0;
    CMD_PRE_CHARGE_PERIOD; 0x22;
    CMD_COM_PIN_CONFIG; 0x12;
    CMD_VCOMH_LEVEL; 0x20;
    CMD_CHARGE_PUMP; 0x14;
    CMD_DISPLAY_ON ].

(* ===================================================================== *)
(** ** i2C code *)

Definition i2cSendBegin : cmd :=
  SCL_high ;; SDA_high ;; SDA_low ;; SCL_low.

Definition i2cSendEnd : cmd :=
  SCL_low ;; SDA_low ;; SCL_high ;; SDA_high.

(** The loop [for (uint8_t mask = 0x80; mask; mask >>= 1)] of
    [i2cSendByte].  [mask] is unsigned, so the test [mask] is [0 < mask]. *)
Equations? i2cSendByte_loop (b mask : Z) (s : state) : state
  by wf (Z.to_nat mask) lt :=
  i2cSendByte_loop b mask s with Z_lt_dec 0 mask => {
    | left _ =>
        i2cSendByte_loop b (u8 (Z.shiftr mask 1))
          ((SCL_high ;; SCL_low)
             ((if negb (Z.land b mask =? 0) then SDA_high else SDA_low) s));
    | right _ => s }.
Proof.
  unfold u8. rewrite Z.shiftr_div_pow2 by lia. change (2 ^ 1) with 2.
  assert (mask / 2 < mask) by (apply Z.div_lt; lia).
  assert (0 <= mask / 2) by (apply Z.div_pos; lia).
  pose proof (Z.mod_le (mask / 2) 256). lia.
Qed.

Definition i2cSendByte (b : Z) : cmd :=
  i2cSendByte_loop b 0x80 ;; SDA_high ;; SCL_high ;; SCL_low.

(* ===================================================================== *)
(** ** Arrays and strings *)

(** A C array seen through a pointer: the byte found at each index.  The
    image and pattern arguments and the font tables carry no length. *)
Definition array : Type := Z -> Z.

(** A table whose contents are given in the source. *)
Definition table (l : list Z) : array := fun i => nth (Z.to_nat i) l 0.

Definition pgm_read_byte (a : array) (i : Z) : Z := a i.

(** Value of a [char]: plain [char] is signed on the AVR. *)
Definition char_value (a : ascii) : Z :=
  let n := Z.of_N (N_of_ascii a) in if n <? 128 then n else n - 256.

(** [*s] for a pointer into a NUL-terminated string. *)
Definition deref (s : string) : Z :=
  match s with
  | EmptyString => 0
  | String a _ => char_value a
  end.

Definition and_dec {P Q : Prop} (p : {P} + {~ P}) (q : {Q} + {~ Q}) :
  {P /\ Q} + {~ (P /\ Q)} :=
  match p, q with
  | left hp, left hq => left (conj hp hq)
  | right np, _ => right (fun h => np (proj1 h))
  | _, right nq => right (fun h => nq (proj2 h))
  end.

(* ===================================================================== *)
(** ** SSD1306 framing *)

Definition ssd1306DataBegin : cmd :=
  i2cSendBegin ;; i2cSendByte SSD1306_ADDR ;; i2cSendByte SSD1306_CTL_DATA.

Definition ssd1306DataEnd : cmd := i2cSendEnd.

(** [i2cSendByte(fInvertData ? ~b : b)]: the [int] result of [~b] is
    converted to the [uint8_t] parameter. *)
Definition ssd1306DataPutByte (b : Z) : cmd :=
  fun s => i2cSendByte (u8 (if fInvertData s then Z.lnot b else b)) s.

Definition ssd1306CmdBegin : cmd :=
  i2cSendBegin ;; i2cSendByte SSD1306_ADDR ;; i2cSendByte SSD1306_CTL_COMMAND.

Definition ssd1306CmdEnd : cmd := i2cSendEnd.

Definition ssd1306SendCommand (b : Z) : cmd :=
  ssd1306CmdBegin ;; i2cSendByte b ;; ssd1306CmdEnd.

(* ===================================================================== *)
(** ** Public methods *)

(** [sizeof(initCommands)]: the table has 25 one-byte entries. *)
Definition sizeof_initCommands : Z := 25.

Ltac counter_grows :=
  unfold below, sizeof_initCommands, NUM_ROWS, NUM_COLUMNS, u8 in *;
  Z.div_mod_to_equations; lia.

(** The constructor: [fInvertData = false]; the registers are whatever
    the hardware holds. *)
Definition SSD1306Display (ddrc portc : Z) : state :=
  mkState ddrc portc false [].

(** [for (uint8_t ix = 0; ix < sizeof(initCommands); ix++)] in [initialize]. *)
Equations? initialize_loop (ix : Z) (s : state) : state
  by wf (below sizeof_initCommands ix) lt :=
  initialize_loop ix s with Z_lt_dec ix sizeof_initCommands => {
    | left _ =>
        initialize_loop (u8 (ix + 1))
          (i2cSendByte (pgm_read_byte (table initCommands) ix) s);
    | right _ => s }.
Proof. counter_grows. Qed.

Definition initialize : cmd :=
  SCL_MODE_OUTPUT ;; SDA_MODE_OUTPUT ;; SCL_high ;; SDA_high ;;
  ssd1306CmdBegin ;; initialize_loop 0 ;; ssd1306CmdEnd.

Definition setPosition (row column : Z) : cmd :=
  if (row >=? NUM_ROWS) || (column >=? NUM_COLUMNS) then skip
  else
    ssd1306CmdBegin ;;
    i2cSendByte (Z.lor CMD_SET_ROW row) ;;
    i2cSendByte (Z.lor CMD_SET_COLUMN_HI (Z.land (Z.shiftr column 4) 0x0f)) ;;
    i2cSendByte (Z.lor CMD_SET_COLUMN_LO (Z.land column 0x0f)) ;;
    ssd1306CmdEnd.

Definition invertData (b : bool) : cmd := set_fInvertData b.

Section Fonts.

(** The glyph tables of [font6x8.h] and [font8x16.h]. *)
Variable font6x8 : array.
Variable font8x16 : array.

(** The glyph index of [text]: [c] is 0 when [*s > '{'], else [*s - 32]
    converted to [uint8_t]. *)
Definition text_c (ch : Z) : Z :=
  if ch >? char_value "{" then 0 else u8 (ch - 32).

(** The glyph index of [text2x]: [c] is 0 when [*s > '}'], else [*s - 32]
    converted to [uint8_t]. *)
Definition text2x_c (ch : Z) : Z :=
  if ch >? char_value "}" then 0 else u8 (ch - 32).

(** [for (uint8_t ix = 0; ix < 6; ix++)] in [text]. *)
Equations? text_glyph (c ix : Z) (s : state) : state
  by wf (below 6 ix) lt :=
  text_glyph c ix s with Z_lt_dec ix 6 => {
    | left _ =>
        text_glyph c (u8 (ix + 1))
          (ssd1306DataPutByte (pgm_read_byte font6x8 (c * 6 + ix)) s);
    | right _ => s }.
Proof. counter_grows. Qed.

(** [for (uint8_t col = column; *s && (col <= NUM_COLUMNS - 6); s++, col += 6)] *)
Fixpoint text_loop (s : string) (col : Z) (st : state) : state :=
  if negb (deref s =? 0) && (col <=? NUM_COLUMNS - 6) then
    match s with
    | EmptyString => st
    | String _ s' =>
        text_loop s' (u8 (col + 6)) (text_glyph (text_c (deref s)) 0 st)
    end
  else st.

Definition text (row column : Z) (str : string) : cmd :=
  if row >? NUM_ROWS - 1 then skip
  else
    setPosition row column ;;
    ssd1306DataBegin ;;
    text_loop str column ;;
    ssd1306DataEnd.

(** [for (int ix = 0; ix < 8; ix++)] in [text2x]; [half] is 0 for the
    upper pass and 8 for the lower one. *)
Equations? text2x_glyph (half c ix : Z) (s : state) : state
  by wf (below 8 ix) lt :=
  text2x_glyph half c ix s with Z_lt_dec ix 8 => {
    | left _ =>
        text2x_glyph half c (ix + 1)
          (ssd1306DataPutByte (pgm_read_byte font8x16 (c * 16 + half + ix)) s);
    | right _ => s }.
Proof. counter_grows. Qed.

(** [for (uint8_t col = column; *s && (col <= NUM_COLUMNS - 8); s++, col += 8)] *)
Fixpoint text2x_loop (half : Z) (s : string) (col : Z) (st : state) : state :=
  if negb (deref s =? 0) && (col <=? NUM_COLUMNS - 8) then
    match s with
    | EmptyString => st
    | String _ s' =>
        text2x_loop half s' (u8 (col + 8))
          (text2x_glyph half (text2x_c (deref s)) 0 st)
    end
  else st.

Definition text2x (row column : Z) (str : string) : cmd :=
  if row >? NUM_ROWS - 2 then skip
  else
    setPosition row column ;;
    ssd1306DataBegin ;;
    text2x_loop 0 str column ;;
    ssd1306DataEnd ;;
    setPosition (u8 (row + 1)) column ;;
    ssd1306DataBegin ;;
    text2x_loop 8 str column ;;
    ssd1306DataEnd.

End Fonts.

(** [for (uint8_t col = 0; col < NUM_COLUMNS; col++)] in [fillScreen]. *)
Equations? fillScreen_cols (fillByte col : Z) (s : state) : state
  by wf (below NUM_COLUMNS col) lt :=
  fillScreen_cols fillByte col s with Z_lt_dec col NUM_COLUMNS => {
    | left _ =>
        fillScreen_cols fillByte (u8 (col + 1)) (ssd1306DataPutByte fillByte s);
    | right _ => s }.
Proof. counter_grows. Qed.

(** [for (uint8_t row = 0; row < NUM_ROWS; row++)] in [fillScreen]. *)
Equations? fillScreen_rows (fillByte row : Z) (s : state) : state
  by wf (below NUM_ROWS row) lt :=
  fillScreen_rows fillByte row s with Z_lt_dec row NUM_ROWS => {
    | left _ =>
        fillScreen_rows fillByte (u8 (row + 1))
          ((setPosition row 0 ;;
            ssd1306DataBegin ;;
            fillScreen_cols fillByte 0 ;;
            ssd1306DataEnd) s);
    | right _ => s }.
Proof. counter_grows. Qed.

Definition fillScreen (fillByte : Z) : cmd := fillScreen_rows fillByte 0.

Definition clear : cmd := fillScreen 0x00.

(** The column loop of [fillAreaWithByte]. *)
Equations? fillAreaWithByte_cols (startColumn columns b col : Z) (s : state) : state
  by wf (below NUM_COLUMNS col) lt :=
  fillAreaWithByte_cols startColumn columns b col s
    with and_dec (Z_lt_dec col (startColumn + columns)) (Z_lt_dec col NUM_COLUMNS) => {
    | left _ =>
        fillAreaWithByte_cols startColumn columns b (u8 (col + 1))
          (ssd1306DataPutByte b s);
    | right _ => s }.
Proof. counter_grows. Qed.

(** The row loop of [fillAreaWithByte]. *)
Equations? fillAreaWithByte_rows (startRow startColumn rows columns b row : Z)
  (s : state) : state by wf (below NUM_ROWS row) lt :=
  fillAreaWithByte_rows startRow startColumn rows columns b row s
    with and_dec (Z_lt_dec row (startRow + rows)) (Z_lt_dec row NUM_ROWS) => {
    | left _ =>
        fillAreaWithByte_rows startRow startColumn rows columns b (u8 (row + 1))
          ((setPosition row startColumn ;;
            ssd1306DataBegin ;;
            fillAreaWithByte_cols startColumn columns b startColumn ;;
            ssd1306DataEnd) s);
    | right _ => s }.
Proof. counter_grows. Qed.

Definition fillAreaWithByte (startRow startColumn rows columns b : Z) : cmd :=
  fillAreaWithByte_rows startRow startColumn rows columns b startRow.

(** The column loop of [fillAreaWithBytes]; [ix] is the pattern index. *)
Equations? fillAreaWithBytes_cols (startColumn columns : Z) (pattern : array)
  (patternSize ix col : Z) (s : state) : state
  by wf (below NUM_COLUMNS col) lt :=
  fillAreaWithBytes_cols startColumn columns pattern patternSize ix col s
    with and_dec (Z_lt_dec col (startColumn + columns)) (Z_lt_dec col NUM_COLUMNS) => {
    | left _ =>
        fillAreaWithBytes_cols startColumn columns pattern patternSize
          (if ix + 1 >=? patternSize then 0 else ix + 1)
          (u8 (col + 1))
          (ssd1306DataPutByte (pattern ix) s);
    | right _ => s }.
Proof. counter_grows. Qed.

(** The row loop of [fillAreaWithBytes]. *)
Equations? fillAreaWithBytes_rows (startRow startColumn rows columns : Z)
  (pattern : array) (patternSize row : Z) (s : state) : state
  by wf (below NUM_ROWS row) lt :=
  fillAreaWithBytes_rows startRow startColumn rows columns pattern patternSize row s
    with and_dec (Z_lt_dec row (startRow + rows)) (Z_lt_dec row NUM_ROWS) => {
    | left _ =>
        fillAreaWithBytes_rows startRow startColumn rows columns pattern patternSize
          (u8 (row + 1))
          ((setPosition row startColumn ;;
            ssd1306DataBegin ;;
            fillAreaWithBytes_cols startColumn columns pattern patternSize 0 startColumn ;;
            ssd1306DataEnd) s);
    | right _ => s }.
Proof. counter_grows. Qed.

Definition fillAreaWithBytes (startRow startColumn rows columns : Z)
  (pattern : array) (patternSize : Z) : cmd :=
  fillAreaWithBytes_rows startRow startColumn rows columns pattern patternSize startRow.

(** The column loop of [drawImage]; [ix] is the running image index. *)
Equations? drawImage_cols (startColumn imageColumns : Z) (image : array)
  (ix col : Z) (s : state) : state
  by wf (below NUM_COLUMNS col) lt :=
  drawImage_cols startColumn imageColumns image ix col s
    with and_dec (Z_lt_dec col (startColumn + imageColumns)) (Z_lt_dec col NUM_COLUMNS) => {
    | left _ =>
        drawImage_cols startColumn imageColumns image (ix + 1) (u8 (col + 1))
          (ssd1306DataPutByte (pgm_read_byte image ix) s);
    | right _ => s }.
Proof. counter_grows. Qed.

(** The row loop of [drawImage]. *)
Equations? drawImage_rows (startRow startColumn imageRows imageColumns : Z)
  (image : array) (row : Z) (s : state) : state
  by wf (below NUM_ROWS row) lt :=
  drawImage_rows startRow startColumn imageRows imageColumns image row s
    with and_dec (Z_lt_dec row (startRow + imageRows)) (Z_lt_dec row NUM_ROWS) => {
    | left _ =>
        drawImage_rows startRow startColumn imageRows imageColumns image
          (u8 (row + 1))
          ((setPosition row startColumn ;;
            ssd1306DataBegin ;;
            drawImage_cols startColumn imageColumns image
              ((row - startRow) * imageColumns) startColumn ;;
            ssd1306DataEnd) s);
    | right _ => s }.
Proof. counter_grows. Qed.

Definition drawImage (startRow startColumn imageRows imageColumns : Z)
  (image : array) : cmd :=
  drawImage_rows startRow startColumn imageRows imageColumns image startRow.

Definition setContrast (level : Z) : cmd :=
  ssd1306CmdBegin ;; i2cSendByte CMD_SET_CONTRAST ;; i2cSendByte level ;; ssd1306CmdEnd.

Definition invertScreen (b : bool) : cmd :=
  ssd1306SendCommand (if b then CMD_INVERT_ON else CMD_INVERT_OFF).

Definition sleep (b : bool) : cmd :=
  ssd1306SendCommand (if b then CMD_DISPLAY_OFF else CMD_DISPLAY_ON).

(** The public operation surface of [class SSD1306Display]. *)
Inductive public_op : Type :=
| Initialize
| SetPosition (row column : Z)
| InvertData (b : bool)
| Clear
| Text (row column : Z) (str : string)
| Text2x (row column : Z) (str : string)
| FillScreen (fillByte : Z)
| FillAreaWithByte (startRow startColumn rows columns b : Z)
| FillAreaWithBytes (startRow startColumn rows columns : Z) (pattern : array)
    (patternSize : Z)
| DrawImage (startRow startColumn imageRows imageColumns : Z) (image : array)
| SetContrast (level : Z)
| InvertScreen (b : bool)
| Sleep (b : bool).

Definition run (font6x8 font8x16 : array) (op : public_op) : cmd :=
  match op with
  | Initialize => initialize
  | SetPosition row column => setPosition row column
  | InvertData b => invertData b
  | Clear => clear
  | Text row column str => text font6x8 row column str
  | Text2x row column str => text2x font8x16 row column str
  | FillScreen fillByte => fillScreen fillByte
  | FillAreaWithByte r c rows columns b => fillAreaWithByte r c rows columns b
  | FillAreaWithBytes r c rows columns pattern patternSize =>
      fillAreaWithBytes r c rows columns pattern patternSize
  | DrawImage r c rows columns image => drawImage r c rows columns image
  | SetContrast level => setContrast level
  | InvertScreen b => invertScreen b
  | Sleep b => sleep b
  end.

(** A value that fits a [uint8_t] parameter. *)
Definition is_u8 (x : Z) : Prop := 0 <= x <= 255.

(** The operations that write pixel data. *)
Definition drawing (op : public_op) : bool :=
  match op with
  | Clear | Text _ _ _ | Text2x _ _ _ | FillScreen _
  | FillAreaWithByte _ _ _ _ _ | FillAreaWithBytes _ _ _ _ _ _
  | DrawImage _ _ _ _ _ => true
  | _ => false
  end.

(* ===================================================================== *)
(** ** Observing the link *)

(** Replaying a recorded pin write. *)
Definition exec (w : pin_write) : cmd :=
  match w with
  | W_SCL_MODE_OUTPUT => SCL_MODE_OUTPUT
  | W_SDA_MODE_OUTPUT => SDA_MODE_OUTPUT
  | W_SCL_high => SCL_high
  | W_SCL_low => SCL_low
  | W_SDA_high => SDA_high
  | W_SDA_low => SDA_low
  end.

Definition emit (ws : list pin_write) : cmd :=
  fun s => fold_left (fun s' w => exec w s') ws s.

(** The pin writes a method adds to the history of the link. *)
Definition sent (c : cmd) (s : state) : list pin_write :=
  skipn (List.length (wire s)) (wire (c s)).

(** The (CLOCK, DATA) levels port C drives after each of a run of pin
    writes. *)
Fixpoint waveform (ws : list pin_write) (s : state) : list (bool * bool) :=
  match ws with
  | [] => []
  | w :: ws' =>
      let s' := exec w s in
      (scl_level s', sda_level s') :: waveform ws' s'
  end.

(** The pin writes of the link layer, as lists. *)
Definition begin_ops : list pin_write := [W_SCL_high; W_SDA_high; W_SDA_low; W_SCL_low].
Definition end_ops : list pin_write := [W_SCL_low; W_SDA_low; W_SCL_high; W_SDA_high].
Definition bit_ops (bit : bool) : list pin_write :=
  [if bit then W_SDA_high else W_SDA_low; W_SCL_high; W_SCL_low].
Definition ack_ops : list pin_write := [W_SDA_high; W_SCL_high; W_SCL_low].
Definition byte_ops (b : Z) : list pin_write :=
  flat_map (fun i => bit_ops (Z.testbit b i)) [7; 6; 5; 4; 3; 2; 1; 0] ++ ack_ops.

(** One frame on the wire: START, the bytes, STOP. *)
Definition frame_ops (bytes : list Z) : list pin_write :=
  begin_ops ++ flat_map byte_ops bytes ++ end_ops.

(** A receiver on the two lines.  It follows the line levels, opens a
    frame on START (DATA falls while CLOCK is high), closes it on STOP
    (DATA rises while CLOCK is high), and inside a frame samples DATA on
    every rising CLOCK edge: eight bits, most significant first, make a
    byte, and the ninth clock is the acknowledgement slot.  A START inside
    an open frame cuts that frame short. *)
Record receiver : Type := mkReceiver {
  rx_scl : bool;
  rx_sda : bool;
  rx_active : bool;
  rx_count : nat;
  rx_shift : Z;
  rx_frame : list Z;
  rx_frames : list (list Z);
  rx_cut : nat
}.

Definition rx_step (r : receiver) (w : pin_write) : receiver :=
  let '(mkReceiver scl sda active count shift frame frames cut) := r in
  match w with
  | W_SCL_MODE_OUTPUT | W_SDA_MODE_OUTPUT => r
  | W_SCL_low => mkReceiver false sda active count shift frame frames cut
  | W_SCL_high =>
      if scl then r
      else if active then
        if (count <? 8)%nat then
          mkReceiver true sda active (S count) (2 * shift + Z.b2z sda) frame frames cut
        else
          mkReceiver true sda active 0 0 (frame ++ [shift]) frames cut
      else mkReceiver true sda active count shift frame frames cut
  | W_SDA_low =>
      if scl then
        if sda then
          mkReceiver scl false true 0 0 [] frames (if active then S cut else cut)
        else r
      else mkReceiver scl false active count shift frame frames cut
  | W_SDA_high =>
      if scl then
        if sda then r
        else if active then mkReceiver scl true false 0 0 [] (frames ++ [frame]) cut
        else mkReceiver scl true false 0 0 [] frames cut
      else mkReceiver scl true active count shift frame frames cut
  end.

Definition receive (r : receiver) (ws : list pin_write) : receiver :=
  fold_left rx_step ws r.

(** A receiver that starts listening, outside any frame, at the given
    line levels. *)
Definition listen (scl sda : bool) : receiver :=
  mkReceiver scl sda false 0 0 [] [] 0.

(** What the receiver gets from one method call. *)
Definition hears (c : cmd) (s : state) : receiver :=
  receive (listen (scl_level s) (sda_level s)) (sent c s).

(** The frames (address byte, control byte, payload) a method call puts
    on the link. *)
Definition on_link (c : cmd) (s : state) : list (list Z) := rx_frames (hears c s).

Definition command_frame (payload : list Z) : list Z :=
  SSD1306_ADDR :: SSD1306_CTL_COMMAND :: payload.
Definition data_frame (payload : list Z) : list Z :=
  SSD1306_ADDR :: SSD1306_CTL_DATA :: payload.

Definition is_command_frame (fr : list Z) : bool :=
  match fr with
  | _ :: ctl :: _ => ctl =? SSD1306_CTL_COMMAND
  | _ => false
  end.

Definition is_data_frame (fr : list Z) : bool :=
  match fr with
  | _ :: ctl :: _ => ctl =? SSD1306_CTL_DATA
  | _ => false
  end.

(** The display-RAM bytes carried by a list of frames. *)
Definition data_payload (frames : list (list Z)) : list Z :=
  flat_map (fun fr => if is_data_frame fr then skipn 2 fr else []) frames.

(** The same frames with the payload of every data frame complemented. *)
Definition complement_data (fr : list Z) : list Z :=
  if is_data_frame fr then firstn 2 fr ++ map (fun x => u8 (Z.lnot x)) (skipn 2 fr)
  else fr.

(** The three payload bytes of the position command. *)
Definition position_bytes (row column : Z) : list Z :=
  [Z.lor 0xB0 row; Z.lor 0x10 (Z.shiftr column 4); Z.lor 0x00 (Z.land column 0x0f)].

(** [start; start + 1; ...; stop - 1]. *)
Definition upto (start stop : Z) : list Z :=
  map (fun k => start + Z.of_nat k) (List.seq 0 (Z.to_nat (stop - start))).

(** The six bytes of glyph [c] in a 6-byte-per-glyph table. *)
Definition glyph6 (font : array) (c : Z) : list Z :=
  map (fun ix => font (c * 6 + ix)) (upto 0 6).

(** The levels a pin write leaves on the two lines. *)
Definition drive (l : bool * bool) (w : pin_write) : bool * bool :=
  match w with
  | W_SCL_high => (true, snd l)
  | W_SCL_low => (false, snd l)
  | W_SDA_high => (fst l, true)
  | W_SDA_low => (fst l, false)
  | W_SCL_MODE_OUTPUT | W_SDA_MODE_OUTPUT => l
  end.

Definition levels (s : state) : bool * bool := (scl_level s, sda_level s).

(** The byte [ssd1306DataPutByte] hands to the link for a pixel byte [b]. *)
Definition put (inv : bool) (b : Z) : Z := u8 (if inv then Z.lnot b else b).

(** What a call supplies for one frame: command bytes, or pixel bytes
    before the data-invert encoding. *)
Inductive frame : Type :=
| Command (payload : list Z)
| Data (payload : list Z).

(** The bytes of a frame as they go on the wire. *)
Definition encode (inv : bool) (f : frame) : list Z :=
  match f with
  | Command p => command_frame p
  | Data p => data_frame (map (put inv) p)
  end.

Definition link_ops (inv : bool) (fs : list frame) : list pin_write :=
  flat_map frame_ops (map (encode inv) fs).

(** A method that only clocks out the given bytes with [i2cSendByte]. *)
Definition sends (c : cmd) (bytes : list Z) : Prop :=
  forall s, c s = emit (flat_map byte_ops bytes) s.

(** A method that only streams pixel bytes through [ssd1306DataPutByte]. *)
Definition streams (c : cmd) (payload : list Z) : Prop :=
  forall s, c s = emit (flat_map byte_ops (map (put (fInvertData s)) payload)) s.

(** A method whose pin writes are a sequence of complete frames. *)
Definition frames_of (c : cmd) (fs : list frame) : Prop :=
  forall s, c s = emit (link_ops (fInvertData s) fs) s.

(** The frames of [setPosition]. *)
Definition setPosition_frames (row column : Z) : list frame :=
  if (row >=? NUM_ROWS) || (column >=? NUM_COLUMNS) then []
  else [Command [Z.lor CMD_SET_ROW row;
                 Z.lor CMD_SET_COLUMN_HI (Z.land (Z.shiftr column 4) 0x0f);
                 Z.lor CMD_SET_COLUMN_LO (Z.land column 0x0f)]].

(** The pixel bytes [text] supplies for a string that starts at [col]. *)
Fixpoint text_payload (font : array) (s : string) (col : Z) : list Z :=
  if negb (deref s =? 0) && (col <=? NUM_COLUMNS - 6) then
    match s with
    | EmptyString => []
    | String _ s' =>
        glyph6 font (text_c (deref s)) ++ text_payload font s' (u8 (col + 6))
    end
  else [].

(** The frames of [text]. *)
Definition text_frames (font : array) (row column : Z) (str : string) : list frame :=
  if row >? NUM_ROWS - 1 then []
  else setPosition_frames row column ++ [Data (text_payload font str column)].

(** The frames of [fillAreaWithByte], for a rectangle clipped to the screen. *)
Definition fillAreaWithByte_frames (sr sc rows cols b : Z) : list frame :=
  flat_map
    (fun row =>
       setPosition_frames row sc ++
       [Data (map (fun _ => b) (upto sc (Z.min (sc + cols) NUM_COLUMNS)))])
    (upto sr (Z.min (sr + rows) NUM_ROWS)).

(** The frames of [drawImage], for a rectangle clipped to the screen. *)
Definition drawImage_frames (sr sc rows cols : Z) (image : array) : list frame :=
  flat_map
    (fun row =>
       setPosition_frames row sc ++
       [Data (map (fun col => image ((row - sr) * cols + (col - sc)))
                (upto sc (Z.min (sc + cols) NUM_COLUMNS)))])
    (upto sr (Z.min (sr + rows) NUM_ROWS)).

(** A table of bytes. *)
Definition is_bytes (a : array) : Prop := forall k, 0 <= a k <= 255.

(** The levels on the two lines after each of a run of pin writes. *)
Fixpoint drive_seq (l : bool * bool) (ws : list pin_write) : list (bool * bool) :=
  match ws with
  | [] => []
  | w :: ws' => drive l w :: drive_seq (drive l w) ws'
  end.

(** A sample table for concrete runs: the byte at each offset is the
    offset itself, reduced to a byte. *)
Definition offset_table : array := fun k => k mod 256.

(** The driver just constructed, with both lines idle high. *)
Definition idle_display : state := SSD1306Display 0 0x30.

(** The characters of a C string: the [char] values before the first NUL. *)
Fixpoint c_chars (s : string) : list Z :=
  match s with
  | EmptyString => []
  | String a s' => if char_value a =? 0 then [] else char_value a :: c_chars s'
  end.

(** How many glyphs of the given width fit between [column] and the right
    edge of the screen. *)
Definition fits (width column : Z) : nat :=
  Z.to_nat ((NUM_COLUMNS - column) / width).

(** The eight bytes of one half of glyph [c] in a 16-byte-per-glyph table:
    [half] is 0 for the upper page and 8 for the lower one. *)
Definition glyph8 (font : array) (half c : Z) : list Z :=
  map (fun ix => font (c * 16 + half + ix)) (upto 0 8).

(** The methods that only send frames: all but [initialize], which also
    sets up the pins, and [invertData], which only sets the flag. *)
Definition framed (op : public_op) : bool :=
  match op with
  | Initialize | InvertData _ => false
  | _ => true
  end.

(** Pin writes that drive a line, as opposed to those that set a pin mode. *)
Definition drives_line (w : pin_write) : bool :=
  match w with
  | W_SCL_MODE_OUTPUT | W_SDA_MODE_OUTPUT => false
  | _ => true
  end.

(* ===================================================================== *)
(** * Properties *)

(** ** Replaying pin writes *)

Lemma emit_app (ws1 ws2 : list pin_write) (s : state) :
  emit (ws1 ++ ws2) s = emit ws2 (emit ws1 s).
Proof. unfold emit. apply fold_left_app. Qed.

Lemma wire_exec (w : pin_write) (s : state) : wire (exec w s) = wire s ++ [w].
Proof. destruct w; reflexivity. Qed.

Lemma fInvertData_exec (w : pin_write) (s : state) :
  fInvertData (exec w s) = fInvertData s.
Proof. destruct w; reflexivity. Qed.

Lemma wire_emit (ws : list pin_write) (s : state) :
  wire (emit ws s) = wire s ++ ws.
Proof.
  revert s. induction ws as [|w ws IH]; intros s.
  - cbn. now rewrite app_nil_r.
  - change (emit (w :: ws) s) with (emit ws (exec w s)).
    rewrite IH, wire_exec, <- app_assoc. reflexivity.
Qed.

Lemma fInvertData_emit (ws : list pin_write) (s : state) :
  fInvertData (emit ws s) = fInvertData s.
Proof.
  revert s. induction ws as [|w ws IH]; intros s; [reflexivity|].
  change (emit (w :: ws) s) with (emit ws (exec w s)).
  now rewrite IH, fInvertData_exec.
Qed.

Lemma skipn_length_app {A : Type} (l1 l2 : list A) :
  skipn (List.length l1) (l1 ++ l2) = l2.
Proof. induction l1; [reflexivity | assumption]. Qed.

Lemma sent_emit (c : cmd) (ws : list pin_write) (s : state) :
  c s = emit ws s -> sent c s = ws.
Proof.
  intros E. unfold sent. rewrite E, wire_emit. apply skipn_length_app.
Qed.

Lemma sent_unchanged (c : cmd) (s : state) : c s = s -> sent c s = [].
Proof. intros E. apply (sent_emit c [] s). exact E. Qed.

(** ** Port C and the line levels *)

Lemma testbit_u8 (x n : Z) : 0 <= n < 8 -> Z.testbit (u8 x) n = Z.testbit x n.
Proof.
  intros H. unfold u8. change 256 with (2 ^ 8).
  apply Z.mod_pow2_bits_low. lia.
Qed.

Lemma testbit_reg_set_same (pin reg : Z) :
  0 <= pin < 8 -> Z.testbit (reg_set pin reg) pin = true.
Proof.
  intros H. unfold reg_set. rewrite testbit_u8 by lia.
  rewrite Z.lor_spec, Z.shiftl_spec by lia.
  replace (pin - pin) with 0 by lia. apply orb_true_r.
Qed.

Lemma testbit_reg_set_other (pin reg n : Z) :
  0 <= pin < 8 -> 0 <= n < 8 -> n <> pin ->
  Z.testbit (reg_set pin reg) n = Z.testbit reg n.
Proof.
  intros Hp Hn Hne. unfold reg_set. rewrite testbit_u8 by lia.
  rewrite Z.lor_spec, Z.shiftl_spec by lia.
  destruct (Z_lt_dec n pin).
  - rewrite (Z.testbit_neg_r 1 (n - pin)) by lia. apply orb_false_r.
  - rewrite (Z.bits_above_log2 1 (n - pin)); [apply orb_false_r | lia | simpl; lia].
Qed.

Lemma testbit_reg_clear_same (pin reg : Z) :
  0 <= pin < 8 -> Z.testbit (reg_clear pin reg) pin = false.
Proof.
  intros H. unfold reg_clear. rewrite testbit_u8 by lia.
  rewrite Z.land_spec, Z.lnot_spec, Z.shiftl_spec by lia.
  replace (pin - pin) with 0 by lia. apply andb_false_r.
Qed.

Lemma testbit_reg_clear_other (pin reg n : Z) :
  0 <= pin < 8 -> 0 <= n < 8 -> n <> pin ->
  Z.testbit (reg_clear pin reg) n = Z.testbit reg n.
Proof.
  intros Hp Hn Hne. unfold reg_clear. rewrite testbit_u8 by lia.
  rewrite Z.land_spec, Z.lnot_spec, Z.shiftl_spec by lia.
  destruct (Z_lt_dec n pin).
  - rewrite (Z.testbit_neg_r 1 (n - pin)) by lia. apply andb_true_r.
  - rewrite (Z.bits_above_log2 1 (n - pin)); [apply andb_true_r | lia | simpl; lia].
Qed.

Lemma levels_exec (w : pin_write) (s : state) :
  levels (exec w s) = drive (levels s) w.
Proof.
  unfold levels, scl_level, sda_level, SCL_PIN, SDA_PIN.
  destruct w; cbn [exec drive fst snd];
    unfold SCL_MODE_OUTPUT, SDA_MODE_OUTPUT, SCL_high, SCL_low, SDA_high, SDA_low;
    cbn [PORTC log set_PORTC set_DDRC]; try reflexivity; unfold SCL_PIN, SDA_PIN;
    f_equal;
    first [ apply testbit_reg_set_same; lia
          | apply testbit_reg_clear_same; lia
          | apply testbit_reg_set_other; lia
          | apply testbit_reg_clear_other; lia ].
Qed.

Lemma rx_levels_step (r : receiver) (w : pin_write) :
  (rx_scl (rx_step r w), rx_sda (rx_step r w)) = drive (rx_scl r, rx_sda r) w.
Proof.
  destruct r as [scl sda active count shift frame frames cut].
  destruct w, scl, sda, active; cbn -[Nat.ltb]; try reflexivity;
    destruct (count <? 8)%nat; reflexivity.
Qed.

(** The receiver sees the levels port C drives. *)
Lemma rx_levels (ws : list pin_write) (r : receiver) (s : state) :
  (rx_scl r, rx_sda r) = levels s ->
  (rx_scl (receive r ws), rx_sda (receive r ws)) = levels (emit ws s).
Proof.
  revert r s. induction ws as [|w ws IH]; intros r s E; [exact E|].
  change (receive r (w :: ws)) with (receive (rx_step r w) ws).
  change (emit (w :: ws) s) with (emit ws (exec w s)).
  apply IH. rewrite rx_levels_step, levels_exec, E. reflexivity.
Qed.

(** ** The loops, one iteration at a time *)

Ltac unroll eqn :=
  rewrite eqn;
  lazymatch goal with
  | |- context [and_dec (Z_lt_dec ?a ?b) (Z_lt_dec ?c ?d)] =>
      let H := fresh "H" in
      let H1 := fresh "H" in
      let H2 := fresh "H" in
      destruct (and_dec (Z_lt_dec a b) (Z_lt_dec c d)) as [[H1 H2]|H];
      [ rewrite (proj2 (Z.ltb_lt a b) H1), (proj2 (Z.ltb_lt c d) H2); reflexivity
      | destruct (Z.ltb_spec a b), (Z.ltb_spec c d); try reflexivity;
        exfalso; apply H; split; assumption ]
  | |- context [Z_lt_dec ?a ?b] =>
      let H := fresh "H" in
      destruct (Z_lt_dec a b) as [H|H];
      [ rewrite (proj2 (Z.ltb_lt a b) H) | rewrite (proj2 (Z.ltb_nlt a b) H) ];
      reflexivity
  end.

Lemma i2cSendByte_loop_step (b mask : Z) (s : state) :
  i2cSendByte_loop b mask s =
  if 0 <? mask then
    i2cSendByte_loop b (u8 (Z.shiftr mask 1))
      ((SCL_high ;; SCL_low)
         ((if negb (Z.land b mask =? 0) then SDA_high else SDA_low) s))
  else s.
Proof. unroll (i2cSendByte_loop_equation_1 b mask s). Qed.

Lemma initialize_loop_step (ix : Z) (s : state) :
  initialize_loop ix s =
  if ix <? sizeof_initCommands then
    initialize_loop (u8 (ix + 1))
      (i2cSendByte (pgm_read_byte (table initCommands) ix) s)
  else s.
Proof. unroll (initialize_loop_equation_1 ix s). Qed.

Lemma text_glyph_step (font : array) (c ix : Z) (s : state) :
  text_glyph font c ix s =
  if ix <? 6 then
    text_glyph font c (u8 (ix + 1))
      (ssd1306DataPutByte (pgm_read_byte font (c * 6 + ix)) s)
  else s.
Proof. unroll (text_glyph_equation_1 font c ix s). Qed.

Lemma text2x_glyph_step (font : array) (half c ix : Z) (s : state) :
  text2x_glyph font half c ix s =
  if ix <? 8 then
    text2x_glyph font half c (ix + 1)
      (ssd1306DataPutByte (pgm_read_byte font (c * 16 + half + ix)) s)
  else s.
Proof. unroll (text2x_glyph_equation_1 font half c ix s). Qed.

Lemma fillScreen_cols_step (fillByte col : Z) (s : state) :
  fillScreen_cols fillByte col s =
  if col <? NUM_COLUMNS then
    fillScreen_cols fillByte (u8 (col + 1)) (ssd1306DataPutByte fillByte s)
  else s.
Proof. unroll (fillScreen_cols_equation_1 fillByte col s). Qed.

Lemma fillScreen_rows_step (fillByte row : Z) (s : state) :
  fillScreen_rows fillByte row s =
  if row <? NUM_ROWS then
    fillScreen_rows fillByte (u8 (row + 1))
      ((setPosition row 0 ;; ssd1306DataBegin ;;
        fillScreen_cols fillByte 0 ;; ssd1306DataEnd) s)
  else s.
Proof. unroll (fillScreen_rows_equation_1 fillByte row s). Qed.

Lemma fillAreaWithByte_cols_step (sc cols b col : Z) (s : state) :
  fillAreaWithByte_cols sc cols b col s =
  if (col <? sc + cols) && (col <? NUM_COLUMNS) then
    fillAreaWithByte_cols sc cols b (u8 (col + 1)) (ssd1306DataPutByte b s)
  else s.
Proof. unroll (fillAreaWithByte_cols_equation_1 sc cols b col s). Qed.

Lemma fillAreaWithByte_rows_step (sr sc rows cols b row : Z) (s : state) :
  fillAreaWithByte_rows sr sc rows cols b row s =
  if (row <? sr + rows) && (row <? NUM_ROWS) then
    fillAreaWithByte_rows sr sc rows cols b (u8 (row + 1))
      ((setPosition row sc ;; ssd1306DataBegin ;;
        fillAreaWithByte_cols sc cols b sc ;; ssd1306DataEnd) s)
  else s.
Proof. unroll (fillAreaWithByte_rows_equation_1 sr sc rows cols b row s). Qed.

Lemma fillAreaWithBytes_cols_step (sc cols : Z) (pattern : array)
  (size ix col : Z) (s : state) :
  fillAreaWithBytes_cols sc cols pattern size ix col s =
  if (col <? sc + cols) && (col <? NUM_COLUMNS) then
    fillAreaWithBytes_cols sc cols pattern size
      (if ix + 1 >=? size then 0 else ix + 1) (u8 (col + 1))
      (ssd1306DataPutByte (pattern ix) s)
  else s.
Proof. unroll (fillAreaWithBytes_cols_equation_1 sc cols pattern size ix col s). Qed.

Lemma fillAreaWithBytes_rows_step (sr sc rows cols : Z) (pattern : array)
  (size row : Z) (s : state) :
  fillAreaWithBytes_rows sr sc rows cols pattern size row s =
  if (row <? sr + rows) && (row <? NUM_ROWS) then
    fillAreaWithBytes_rows sr sc rows cols pattern size (u8 (row + 1))
      ((setPosition row sc ;; ssd1306DataBegin ;;
        fillAreaWithBytes_cols sc cols pattern size 0 sc ;; ssd1306DataEnd) s)
  else s.
Proof. unroll (fillAreaWithBytes_rows_equation_1 sr sc rows cols pattern size row s). Qed.

Lemma drawImage_cols_step (sc cols : Z) (image : array) (ix col : Z) (s : state) :
  drawImage_cols sc cols image ix col s =
  if (col <? sc + cols) && (col <? NUM_COLUMNS) then
    drawImage_cols sc cols image (ix + 1) (u8 (col + 1))
      (ssd1306DataPutByte (pgm_read_byte image ix) s)
  else s.
Proof. unroll (drawImage_cols_equation_1 sc cols image ix col s). Qed.

Lemma drawImage_rows_step (sr sc rows cols : Z) (image : array) (row : Z)
  (s : state) :
  drawImage_rows sr sc rows cols image row s =
  if (row <? sr + rows) && (row <? NUM_ROWS) then
    drawImage_rows sr sc rows cols image (u8 (row + 1))
      ((setPosition row sc ;; ssd1306DataBegin ;;
        drawImage_cols sc cols image ((row - sr) * cols) sc ;; ssd1306DataEnd) s)
  else s.
Proof. unroll (drawImage_rows_equation_1 sr sc rows cols image row s). Qed.

(** ** The link layer as pin writes *)

Lemma land_mask (b i : Z) :
  0 <= i -> negb (Z.land b (2 ^ i) =? 0) = Z.testbit b i.
Proof.
  intros Hi. destruct (Z.testbit b i) eqn:E.
  - assert (Z.testbit (Z.land b (2 ^ i)) i = true) as T.
    { rewrite Z.land_spec, E, Z.pow2_bits_true by lia. reflexivity. }
    destruct (Z.eqb_spec (Z.land b (2 ^ i)) 0) as [Z0|]; [|reflexivity].
    rewrite Z0, Z.bits_0 in T. discriminate.
  - replace (Z.land b (2 ^ i)) with 0; [reflexivity|].
    symmetry. apply Z.bits_inj'. intros n Hn.
    rewrite Z.bits_0, Z.land_spec, Z.pow2_bits_eqb by lia.
    destruct (Z.eqb_spec i n) as [->|]; [rewrite E|]; auto using andb_false_r.
Qed.

Lemma i2cSendByte_loop_bit (b i : Z) (s : state) :
  0 <= i ->
  i2cSendByte_loop b (2 ^ i) s =
  i2cSendByte_loop b (u8 (Z.shiftr (2 ^ i) 1)) (emit (bit_ops (Z.testbit b i)) s).
Proof.
  intros Hi. rewrite (i2cSendByte_loop_step b (2 ^ i) s).
  assert (0 < 2 ^ i) as P by (apply Z.pow_pos_nonneg; lia).
  rewrite (proj2 (Z.ltb_lt _ _) P), land_mask by lia.
  destruct (Z.testbit b i); reflexivity.
Qed.

Lemma i2cSendBegin_emit (s : state) : i2cSendBegin s = emit begin_ops s.
Proof. reflexivity. Qed.

Lemma i2cSendEnd_emit (s : state) : i2cSendEnd s = emit end_ops s.
Proof. reflexivity. Qed.

(** [i2cSendByte] is exactly the pin writes of [byte_ops]: the mask loop
    runs eight times, from bit 7 down to bit 0. *)
Lemma i2cSendByte_emit (b : Z) (s : state) : i2cSendByte b s = emit (byte_ops b) s.
Proof.
  unfold i2cSendByte, seq.
  change 0x80 with (2 ^ 7).
  rewrite i2cSendByte_loop_bit by lia. change (u8 (Z.shiftr (2 ^ 7) 1)) with (2 ^ 6).
  rewrite i2cSendByte_loop_bit by lia. change (u8 (Z.shiftr (2 ^ 6) 1)) with (2 ^ 5).
  rewrite i2cSendByte_loop_bit by lia. change (u8 (Z.shiftr (2 ^ 5) 1)) with (2 ^ 4).
  rewrite i2cSendByte_loop_bit by lia. change (u8 (Z.shiftr (2 ^ 4) 1)) with (2 ^ 3).
  rewrite i2cSendByte_loop_bit by lia. change (u8 (Z.shiftr (2 ^ 3) 1)) with (2 ^ 2).
  rewrite i2cSendByte_loop_bit by lia. change (u8 (Z.shiftr (2 ^ 2) 1)) with (2 ^ 1).
  rewrite i2cSendByte_loop_bit by lia. change (u8 (Z.shiftr (2 ^ 1) 1)) with (2 ^ 0).
  rewrite i2cSendByte_loop_bit by lia. change (u8 (Z.shiftr (2 ^ 0) 1)) with 0.
  rewrite i2cSendByte_loop_step. change (0 <? 0) with false. cbv iota.
  unfold byte_ops. cbn [flat_map]. rewrite app_nil_r.
  rewrite !emit_app. reflexivity.
Qed.

Lemma ssd1306DataPutByte_emit (b : Z) (s : state) :
  ssd1306DataPutByte b s = emit (byte_ops (put (fInvertData s) b)) s.
Proof. unfold ssd1306DataPutByte. apply i2cSendByte_emit. Qed.

(** ** What the receiver makes of the pin writes *)

Lemma receive_app (r : receiver) (ws1 ws2 : list pin_write) :
  receive r (ws1 ++ ws2) = receive (receive r ws1) ws2.
Proof. unfold receive. apply fold_left_app. Qed.

Lemma receive_begin scl sda count shift frame frames cut :
  receive (mkReceiver scl sda false count shift frame frames cut) begin_ops =
  mkReceiver false false true 0 0 [] frames cut.
Proof. destruct scl, sda; reflexivity. Qed.

Lemma receive_bit sda count shift frame frames cut (bit : bool) :
  (count < 8)%nat ->
  receive (mkReceiver false sda true count shift frame frames cut) (bit_ops bit) =
  mkReceiver false bit true (S count) (2 * shift + Z.b2z bit) frame frames cut.
Proof.
  intros H. apply Nat.ltb_lt in H.
  destruct bit; cbn -[Nat.ltb Z.mul Z.add]; rewrite H; reflexivity.
Qed.

Lemma receive_ack sda shift frame frames cut :
  receive (mkReceiver false sda true 8 shift frame frames cut) ack_ops =
  mkReceiver false true true 0 0 (frame ++ [shift]) frames cut.
Proof. reflexivity. Qed.

Lemma bits_u8 (b : Z) :
  2 * (2 * (2 * (2 * (2 * (2 * (2 * (2 * 0
    + Z.b2z (Z.testbit b 7)) + Z.b2z (Z.testbit b 6)) + Z.b2z (Z.testbit b 5))
    + Z.b2z (Z.testbit b 4)) + Z.b2z (Z.testbit b 3)) + Z.b2z (Z.testbit b 2))
    + Z.b2z (Z.testbit b 1)) + Z.b2z (Z.testbit b 0) = u8 b.
Proof.
  rewrite !Z.testbit_spec' by lia. unfold u8.
  change (2 ^ 7) with 128. change (2 ^ 6) with 64. change (2 ^ 5) with 32.
  change (2 ^ 4) with 16. change (2 ^ 3) with 8. change (2 ^ 2) with 4.
  change (2 ^ 1) with 2. change (2 ^ 0) with 1.
  Z.div_mod_to_equations. lia.
Qed.

(** A byte clocked out by [i2cSendByte] is the byte the receiver takes in. *)
Lemma receive_byte sda frame frames cut (b : Z) :
  receive (mkReceiver false sda true 0 0 frame frames cut) (byte_ops b) =
  mkReceiver false true true 0 0 (frame ++ [u8 b]) frames cut.
Proof.
  unfold byte_ops. cbn [flat_map]. rewrite app_nil_r, !receive_app.
  rewrite !receive_bit by lia. rewrite receive_ack, bits_u8. reflexivity.
Qed.

Lemma receive_bytes (bytes : list Z) sda frame frames cut :
  exists sda',
    receive (mkReceiver false sda true 0 0 frame frames cut) (flat_map byte_ops bytes) =
    mkReceiver false sda' true 0 0 (frame ++ map u8 bytes) frames cut.
Proof.
  revert sda frame. induction bytes as [|b bytes IH]; intros sda frame.
  - exists sda. cbn. now rewrite app_nil_r.
  - cbn [flat_map map]. rewrite receive_app, receive_byte.
    destruct (IH true (frame ++ [u8 b])) as [sda' E]. exists sda'.
    rewrite E, <- app_assoc. reflexivity.
Qed.

Lemma receive_end sda frame frames cut :
  receive (mkReceiver false sda true 0 0 frame frames cut) end_ops =
  mkReceiver true true false 0 0 [] (frames ++ [frame]) cut.
Proof. destruct sda; reflexivity. Qed.

(** One frame, heard from outside any frame: the receiver ends idle with
    the frame's bytes appended. *)
Lemma receive_frame (bytes : list Z) (r : receiver) :
  rx_active r = false ->
  receive r (frame_ops bytes) =
  mkReceiver true true false 0 0 [] (rx_frames r ++ [map u8 bytes]) (rx_cut r).
Proof.
  destruct r as [scl sda active count shift frame frames cut]. cbn [rx_active].
  intros ->. unfold frame_ops. rewrite !receive_app, receive_begin.
  destruct (receive_bytes bytes false [] frames cut) as [sda' E].
  rewrite E, receive_end. reflexivity.
Qed.

Lemma receive_frames (fs : list (list Z)) (r : receiver) :
  rx_active r = false ->
  let r' := receive r (flat_map frame_ops fs) in
  rx_active r' = false /\
  rx_frames r' = rx_frames r ++ map (map u8) fs /\
  rx_cut r' = rx_cut r /\
  (fs <> [] -> rx_scl r' = true /\ rx_sda r' = true).
Proof.
  revert r. induction fs as [|f fs IH]; intros r Hr; cbn zeta.
  - cbn. rewrite app_nil_r. repeat split; auto; congruence.
  - cbn [flat_map map]. rewrite receive_app, receive_frame by assumption.
    specialize (IH (mkReceiver true true false 0 0 [] (rx_frames r ++ [map u8 f]) (rx_cut r)) eq_refl).
    cbn zeta in IH. destruct IH as (A & F & C & L).
    repeat split; auto.
    + rewrite F. cbn [rx_frames]. rewrite <- app_assoc. reflexivity.
    + destruct fs as [|f' fs']; [reflexivity | apply L; discriminate].
    + destruct fs as [|f' fs']; [reflexivity | apply L; discriminate].
Qed.

(** ** Describing what a method puts on the wire *)

Lemma sends_ext c c' l : (forall s, c s = c' s) -> sends c l -> sends c' l.
Proof. intros E H s. rewrite <- E. apply H. Qed.

Lemma sends_skip : sends skip [].
Proof. intros s. reflexivity. Qed.

Lemma sends_seq a b p q : sends a p -> sends b q -> sends (a ;; b) (p ++ q).
Proof.
  intros Ha Hb s. unfold seq. rewrite Ha, Hb, flat_map_app, emit_app. reflexivity.
Qed.

Lemma sends_byte (b : Z) : sends (i2cSendByte b) [b].
Proof. intros s. cbn [flat_map]. rewrite app_nil_r. apply i2cSendByte_emit. Qed.

Lemma streams_ext c c' l : (forall s, c s = c' s) -> streams c l -> streams c' l.
Proof. intros E H s. rewrite <- E. apply H. Qed.

Lemma streams_skip : streams skip [].
Proof. intros s. reflexivity. Qed.

Lemma streams_seq a b p q : streams a p -> streams b q -> streams (a ;; b) (p ++ q).
Proof.
  intros Ha Hb s. unfold seq. rewrite Hb, Ha, fInvertData_emit.
  rewrite map_app, flat_map_app, emit_app. reflexivity.
Qed.

Lemma streams_put (b : Z) : streams (ssd1306DataPutByte b) [b].
Proof.
  intros s. cbn [map flat_map]. rewrite app_nil_r. apply ssd1306DataPutByte_emit.
Qed.

Lemma frames_of_ext c c' l : (forall s, c s = c' s) -> frames_of c l -> frames_of c' l.
Proof. intros E H s. rewrite <- E. apply H. Qed.

Lemma frames_of_skip : frames_of skip [].
Proof. intros s. reflexivity. Qed.

Lemma frames_of_seq a b p q :
  frames_of a p -> frames_of b q -> frames_of (a ;; b) (p ++ q).
Proof.
  intros Ha Hb s. unfold seq. rewrite Hb, Ha, fInvertData_emit.
  unfold link_ops. rewrite map_app, flat_map_app, emit_app. reflexivity.
Qed.

(** A command frame: [ssd1306CmdBegin], bytes, [ssd1306CmdEnd]. *)
Lemma frames_of_command (body : cmd) (bytes : list Z) :
  sends body bytes ->
  frames_of (ssd1306CmdBegin ;; body ;; ssd1306CmdEnd) [Command bytes].
Proof.
  intros Hb s. unfold seq, ssd1306CmdBegin, ssd1306CmdEnd, seq.
  rewrite i2cSendBegin_emit, !i2cSendByte_emit, Hb, i2cSendEnd_emit.
  unfold link_ops, frame_ops. cbn [map flat_map encode command_frame].
  rewrite app_nil_r, !emit_app. reflexivity.
Qed.

(** A data frame: [ssd1306DataBegin], pixel bytes, [ssd1306DataEnd]. *)
Lemma frames_of_data (body : cmd) (payload : list Z) :
  streams body payload ->
  frames_of (ssd1306DataBegin ;; body ;; ssd1306DataEnd) [Data payload].
Proof.
  intros Hb s. unfold seq, ssd1306DataBegin, ssd1306DataEnd, seq.
  rewrite i2cSendBegin_emit, !i2cSendByte_emit, Hb, i2cSendEnd_emit.
  rewrite !fInvertData_emit.
  unfold link_ops, frame_ops. cbn [map flat_map encode data_frame].
  rewrite app_nil_r, !emit_app. reflexivity.
Qed.

Lemma frames_of_setPosition (row column : Z) :
  frames_of (setPosition row column) (setPosition_frames row column).
Proof.
  unfold setPosition, setPosition_frames.
  destruct ((row >=? NUM_ROWS) || (column >=? NUM_COLUMNS)).
  - apply frames_of_skip.
  - set (r := Z.lor CMD_SET_ROW row).
    set (hi := Z.lor CMD_SET_COLUMN_HI (Z.land (Z.shiftr column 4) 15)).
    set (lo := Z.lor CMD_SET_COLUMN_LO (Z.land column 15)).
    apply (frames_of_ext
             (ssd1306CmdBegin ;;
              (i2cSendByte r ;; i2cSendByte hi ;; i2cSendByte lo) ;;
              ssd1306CmdEnd)); [intros s; unfold seq; reflexivity|].
    apply frames_of_command.
    apply (sends_seq _ _ [r] [hi; lo]); [apply sends_byte|].
    apply (sends_seq _ _ [hi] [lo]); apply sends_byte.
Qed.

(** [upto] one element at a time. *)
Lemma upto_nil (start stop : Z) : stop <= start -> upto start stop = [].
Proof.
  intros H. unfold upto. replace (Z.to_nat (stop - start)) with 0%nat by lia.
  reflexivity.
Qed.

Lemma upto_cons (start stop : Z) :
  start < stop -> upto start stop = start :: upto (start + 1) stop.
Proof.
  intros H. unfold upto.
  replace (Z.to_nat (stop - start)) with (S (Z.to_nat (stop - (start + 1)))) by lia.
  cbn [List.seq map]. f_equal; [lia|].
  rewrite <- seq_shift, map_map. apply map_ext. intros k. lia.
Qed.

Lemma upto_length (start stop : Z) :
  List.length (upto start stop) = Z.to_nat (stop - start).
Proof. unfold upto. now rewrite length_map, length_seq. Qed.

Section Described.

Context {X : Type} (R : cmd -> list X -> Prop).
Hypothesis R_ext : forall c c' l, (forall s, c s = c' s) -> R c l -> R c' l.
Hypothesis R_skip : R skip [].
Hypothesis R_seq : forall a b p q, R a p -> R b q -> R (a ;; b) (p ++ q).

(** A loop that terminates under a measure is described when its body is. *)
Lemma loop_described {T : Type} (m : T -> nat) (cond : T -> bool)
  (next : T -> T) (body G : T -> cmd) :
  (forall t s, G t s = if cond t then G (next t) (body t s) else s) ->
  (forall t, cond t = true -> (m (next t) < m t)%nat) ->
  (forall t, exists l, R (body t) l) ->
  forall t, exists l, R (G t) l.
Proof.
  intros step dec bodyR t.
  induction t as [t IH] using (well_founded_induction (well_founded_ltof T m)).
  destruct (cond t) eqn:C.
  - destruct (bodyR t) as [p Hp]. destruct (IH (next t) (dec t C)) as [q Hq].
    exists (p ++ q). apply (R_ext (body t ;; G (next t))).
    + intros s. rewrite step, C. reflexivity.
    + apply R_seq; assumption.
  - exists []. apply (R_ext skip); [|exact R_skip].
    intros s. rewrite step, C. reflexivity.
Qed.

(** A loop that counts from [i] up to [stop]. *)
Lemma counted_loop (stop : Z) (body G : Z -> cmd) (item : Z -> list X) :
  (forall i s, 0 <= i -> G i s = if i <? stop then G (i + 1) (body i s) else s) ->
  (forall i, 0 <= i -> R (body i) (item i)) ->
  forall i, 0 <= i -> R (G i) (flat_map item (upto i stop)).
Proof.
  intros step bodyR i.
  remember (Z.to_nat (stop - i)) as n eqn:En. revert i En.
  induction n as [|n IH]; intros i En Hi.
  - rewrite upto_nil by lia. apply (R_ext skip); [|exact R_skip].
    intros s. rewrite step by assumption.
    destruct (Z.ltb_spec i stop); [lia | reflexivity].
  - rewrite upto_cons by lia. cbn [flat_map].
    apply (R_ext (body i ;; G (i + 1))).
    + intros s. rewrite step by assumption.
      destruct (Z.ltb_spec i stop); [reflexivity | lia].
    + apply R_seq; [apply bodyR; assumption | apply IH; lia].
Qed.

End Described.

(** ** What a described method leaves on the link *)

Lemma frames_of_sent (c : cmd) (fs : list frame) (s : state) :
  frames_of c fs -> sent c s = link_ops (fInvertData s) fs.
Proof. intros H. apply sent_emit, H. Qed.

Lemma frames_of_hears (c : cmd) (fs : list frame) (s : state) :
  frames_of c fs ->
  rx_active (hears c s) = false /\
  rx_cut (hears c s) = 0%nat /\
  on_link c s = map (fun f => map u8 (encode (fInvertData s) f)) fs.
Proof.
  intros H. unfold on_link, hears. rewrite (frames_of_sent c fs s H).
  unfold link_ops.
  destruct (receive_frames (map (encode (fInvertData s)) fs)
              (listen (scl_level s) (sda_level s)) eq_refl) as (A & F & C & _).
  repeat split; [exact A | exact C |].
  rewrite F, map_map. reflexivity.
Qed.

Lemma frames_of_on_link (c : cmd) (fs : list frame) (s : state) :
  frames_of c fs ->
  on_link c s = map (fun f => map u8 (encode (fInvertData s) f)) fs.
Proof. intros H. apply (frames_of_hears c fs s H). Qed.

(** A method made of frames leaves the lines idle, if they were idle. *)
Lemma frames_of_levels (c : cmd) (fs : list frame) (s : state) :
  frames_of c fs -> levels s = (true, true) -> levels (c s) = (true, true).
Proof.
  intros H L. rewrite H.
  rewrite <- (rx_levels _ (listen (scl_level s) (sda_level s)) s eq_refl).
  unfold link_ops.
  destruct (receive_frames (map (encode (fInvertData s)) fs)
              (listen (scl_level s) (sda_level s)) eq_refl) as (_ & _ & _ & I).
  destruct fs as [|f fs].
  - exact L.
  - destruct I as [I1 I2]; [discriminate|]. rewrite I1, I2. reflexivity.
Qed.

(** ** The methods, described *)

Lemma row_frames (row sc : Z) (cols : cmd) (p : list Z) :
  streams cols p ->
  frames_of (setPosition row sc ;; ssd1306DataBegin ;; cols ;; ssd1306DataEnd)
    (setPosition_frames row sc ++ [Data p]).
Proof.
  intros H. apply frames_of_seq; [apply frames_of_setPosition|].
  apply frames_of_data, H.
Qed.

Ltac still_below :=
  let C := fresh "C" in
  intros ? C;
  try (apply andb_prop in C; destruct C as [_ C]);
  apply Z.ltb_lt in C; counter_grows.

Lemma text2x_glyph_streams (font : array) (half c ix : Z) :
  exists p, streams (text2x_glyph font half c ix) p.
Proof.
  apply (loop_described streams streams_ext streams_skip streams_seq
           (below 8) (fun ix => ix <? 8) (fun ix => ix + 1)
           (fun ix => ssd1306DataPutByte (pgm_read_byte font (c * 16 + half + ix)))
           (text2x_glyph font half c)).
  - intros t s. apply text2x_glyph_step.
  - still_below.
  - intros t. eexists. apply streams_put.
Qed.

Lemma text2x_loop_streams (font : array) (half : Z) (str : string) (col : Z) :
  exists p, streams (text2x_loop font half str col) p.
Proof.
  revert col. induction str as [|a str IH]; intros col.
  - exists []. intros s. cbn. destruct (col <=? NUM_COLUMNS - 8); reflexivity.
  - cbn [text2x_loop].
    destruct (negb (deref (String a str) =? 0) && (col <=? NUM_COLUMNS - 8)).
    + destruct (text2x_glyph_streams font half (text2x_c (deref (String a str))) 0)
        as [p Hp].
      destruct (IH (u8 (col + 8))) as [q Hq].
      exists (p ++ q). apply (streams_seq _ _ _ _ Hp Hq).
    + exists []. apply streams_skip.
Qed.

Lemma fillScreen_cols_streams (b col : Z) :
  exists p, streams (fillScreen_cols b col) p.
Proof.
  apply (loop_described streams streams_ext streams_skip streams_seq
           (below NUM_COLUMNS) (fun col => col <? NUM_COLUMNS)
           (fun col => u8 (col + 1)) (fun _ => ssd1306DataPutByte b)
           (fillScreen_cols b)).
  - intros t s. apply fillScreen_cols_step.
  - still_below.
  - intros t. eexists. apply streams_put.
Qed.

Lemma fillScreen_rows_frames (b row : Z) :
  exists fs, frames_of (fillScreen_rows b row) fs.
Proof.
  apply (loop_described frames_of frames_of_ext frames_of_skip frames_of_seq
           (below NUM_ROWS) (fun row => row <? NUM_ROWS)
           (fun row => u8 (row + 1))
           (fun row => setPosition row 0 ;; ssd1306DataBegin ;;
                       fillScreen_cols b 0 ;; ssd1306DataEnd)
           (fillScreen_rows b)).
  - intros t s. apply fillScreen_rows_step.
  - still_below.
  - intros t. destruct (fillScreen_cols_streams b 0) as [p Hp].
    eexists. apply row_frames, Hp.
Qed.

Lemma fillAreaWithByte_cols_streams (sc cols b col : Z) :
  exists p, streams (fillAreaWithByte_cols sc cols b col) p.
Proof.
  apply (loop_described streams streams_ext streams_skip streams_seq
           (below NUM_COLUMNS)
           (fun col => (col <? sc + cols) && (col <? NUM_COLUMNS))
           (fun col => u8 (col + 1)) (fun _ => ssd1306DataPutByte b)
           (fillAreaWithByte_cols sc cols b)).
  - intros t s. apply fillAreaWithByte_cols_step.
  - still_below.
  - intros t. eexists. apply streams_put.
Qed.

Lemma fillAreaWithByte_rows_frames (sr sc rows cols b row : Z) :
  exists fs, frames_of (fillAreaWithByte_rows sr sc rows cols b row) fs.
Proof.
  apply (loop_described frames_of frames_of_ext frames_of_skip frames_of_seq
           (below NUM_ROWS)
           (fun row => (row <? sr + rows) && (row <? NUM_ROWS))
           (fun row => u8 (row + 1))
           (fun row => setPosition row sc ;; ssd1306DataBegin ;;
                       fillAreaWithByte_cols sc cols b sc ;; ssd1306DataEnd)
           (fillAreaWithByte_rows sr sc rows cols b)).
  - intros t s. apply fillAreaWithByte_rows_step.
  - still_below.
  - intros t. destruct (fillAreaWithByte_cols_streams sc cols b sc) as [p Hp].
    eexists. apply row_frames, Hp.
Qed.

Lemma fillAreaWithBytes_cols_streams (sc cols : Z) (pattern : array)
  (size ix col : Z) :
  exists p, streams (fillAreaWithBytes_cols sc cols pattern size ix col) p.
Proof.
  refine (loop_described streams streams_ext streams_skip streams_seq
           (fun t => below NUM_COLUMNS (snd t))
           (fun t => (snd t <? sc + cols) && (snd t <? NUM_COLUMNS))
           (fun t => (if fst t + 1 >=? size then 0 else fst t + 1, u8 (snd t + 1)))
           (fun t => ssd1306DataPutByte (pattern (fst t)))
           (fun t => fillAreaWithBytes_cols sc cols pattern size (fst t) (snd t))
           _ _ _ (ix, col)).
  - intros t s. apply fillAreaWithBytes_cols_step.
  - cbn [snd]. still_below.
  - intros t. eexists. apply streams_put.
Qed.

Lemma fillAreaWithBytes_rows_frames (sr sc rows cols : Z) (pattern : array)
  (size row : Z) :
  exists fs, frames_of (fillAreaWithBytes_rows sr sc rows cols pattern size row) fs.
Proof.
  apply (loop_described frames_of frames_of_ext frames_of_skip frames_of_seq
           (below NUM_ROWS)
           (fun row => (row <? sr + rows) && (row <? NUM_ROWS))
           (fun row => u8 (row + 1))
           (fun row => setPosition row sc ;; ssd1306DataBegin ;;
                       fillAreaWithBytes_cols sc cols pattern size 0 sc ;;
                       ssd1306DataEnd)
           (fillAreaWithBytes_rows sr sc rows cols pattern size)).
  - intros t s. apply fillAreaWithBytes_rows_step.
  - still_below.
  - intros t.
    destruct (fillAreaWithBytes_cols_streams sc cols pattern size 0 sc) as [p Hp].
    eexists. apply row_frames, Hp.
Qed.

Lemma drawImage_cols_streams (sc cols : Z) (image : array) (ix col : Z) :
  exists p, streams (drawImage_cols sc cols image ix col) p.
Proof.
  refine (loop_described streams streams_ext streams_skip streams_seq
           (fun t => below NUM_COLUMNS (snd t))
           (fun t => (snd t <? sc + cols) && (snd t <? NUM_COLUMNS))
           (fun t => (fst t + 1, u8 (snd t + 1)))
           (fun t => ssd1306DataPutByte (pgm_read_byte image (fst t)))
           (fun t => drawImage_cols sc cols image (fst t) (snd t))
           _ _ _ (ix, col)).
  - intros t s. apply drawImage_cols_step.
  - cbn [snd]. still_below.
  - intros t. eexists. apply streams_put.
Qed.

Lemma drawImage_rows_frames (sr sc rows cols : Z) (image : array) (row : Z) :
  exists fs, frames_of (drawImage_rows sr sc rows cols image row) fs.
Proof.
  apply (loop_described frames_of frames_of_ext frames_of_skip frames_of_seq
           (below NUM_ROWS)
           (fun row => (row <? sr + rows) && (row <? NUM_ROWS))
           (fun row => u8 (row + 1))
           (fun row => setPosition row sc ;; ssd1306DataBegin ;;
                       drawImage_cols sc cols image ((row - sr) * cols) sc ;;
                       ssd1306DataEnd)
           (drawImage_rows sr sc rows cols image)).
  - intros t s. apply drawImage_rows_step.
  - still_below.
  - intros t.
    destruct (drawImage_cols_streams sc cols image ((t - sr) * cols) sc) as [p Hp].
    eexists. apply row_frames, Hp.
Qed.

(** ** Closed forms *)

Lemma flat_map_single {A B : Type} (f : A -> B) (l : list A) :
  flat_map (fun x => [f x]) l = map f l.
Proof. induction l as [|x l IH]; [reflexivity|]. cbn. now rewrite IH. Qed.

Lemma ltb_min (i a b : Z) : (i <? a) && (i <? b) = (i <? Z.min a b).
Proof.
  destruct (Z.ltb_spec i a), (Z.ltb_spec i b), (Z.ltb_spec i (Z.min a b));
    try reflexivity; lia.
Qed.

Lemma u8_small (x : Z) : 0 <= x <= 255 -> u8 x = x.
Proof. intros H. unfold u8. apply Z.mod_small. lia. Qed.

Lemma sizeof_initCommands_length :
  sizeof_initCommands = Z.of_nat (List.length initCommands).
Proof. reflexivity. Qed.

(** The loop of [initialize] clocks out the whole command table, in order. *)
Lemma initialize_loop_sends : sends (initialize_loop 0) initCommands.
Proof.
  change (sends (initialize_loop 0)
            (flat_map (fun i => [table initCommands i]) (upto 0 sizeof_initCommands))).
  apply (counted_loop sends sends_ext sends_skip sends_seq sizeof_initCommands
           (fun i => i2cSendByte (pgm_read_byte (table initCommands) i))
           initialize_loop); [| intros; apply sends_byte | lia].
  intros i s Hi. rewrite initialize_loop_step.
  destruct (Z.ltb_spec i sizeof_initCommands) as [L|]; [|reflexivity].
  rewrite u8_small by (unfold sizeof_initCommands in L; lia). reflexivity.
Qed.

Lemma text_glyph_streams (font : array) (c : Z) :
  streams (text_glyph font c 0) (glyph6 font c).
Proof.
  unfold glyph6. rewrite <- flat_map_single.
  apply (counted_loop streams streams_ext streams_skip streams_seq 6
           (fun ix => ssd1306DataPutByte (pgm_read_byte font (c * 6 + ix)))
           (text_glyph font c)); [| intros; apply streams_put | lia].
  intros i s Hi. rewrite text_glyph_step.
  destruct (Z.ltb_spec i 6); [|reflexivity].
  rewrite u8_small by lia. reflexivity.
Qed.

Lemma text_loop_streams (font : array) (str : string) (col : Z) :
  streams (text_loop font str col) (text_payload font str col).
Proof.
  revert col. induction str as [|a str IH]; intros col.
  - intros s. cbn. destruct (col <=? NUM_COLUMNS - 6); reflexivity.
  - cbn [text_loop text_payload].
    destruct (negb (deref (String a str) =? 0) && (col <=? NUM_COLUMNS - 6)).
    + apply (streams_seq _ _ _ _ (text_glyph_streams font _) (IH _)).
    + apply streams_skip.
Qed.

Lemma text_frames_of (font : array) (row column : Z) (str : string) :
  frames_of (text font row column str) (text_frames font row column str).
Proof.
  unfold text, text_frames. destruct (row >? NUM_ROWS - 1).
  - apply frames_of_skip.
  - apply row_frames, text_loop_streams.
Qed.

Lemma fillAreaWithByte_cols_closed (sc cols b : Z) :
  0 <= sc ->
  streams (fillAreaWithByte_cols sc cols b sc)
    (map (fun _ => b) (upto sc (Z.min (sc + cols) NUM_COLUMNS))).
Proof.
  intros Hsc. rewrite <- flat_map_single.
  apply (counted_loop streams streams_ext streams_skip streams_seq
           (Z.min (sc + cols) NUM_COLUMNS)
           (fun _ => ssd1306DataPutByte b)
           (fillAreaWithByte_cols sc cols b)); [| intros; apply streams_put | lia].
  intros i s Hi. rewrite fillAreaWithByte_cols_step, ltb_min.
  destruct (Z.ltb_spec i (Z.min (sc + cols) NUM_COLUMNS)) as [L|]; [|reflexivity].
  rewrite u8_small by (unfold NUM_COLUMNS in L; lia). reflexivity.
Qed.

Lemma fillAreaWithByte_frames_of (sr sc rows cols b : Z) :
  0 <= sr -> 0 <= sc ->
  frames_of (fillAreaWithByte sr sc rows cols b)
    (fillAreaWithByte_frames sr sc rows cols b).
Proof.
  intros Hsr Hsc. unfold fillAreaWithByte, fillAreaWithByte_frames.
  apply (counted_loop frames_of frames_of_ext frames_of_skip frames_of_seq
           (Z.min (sr + rows) NUM_ROWS)
           (fun row => setPosition row sc ;; ssd1306DataBegin ;;
                       fillAreaWithByte_cols sc cols b sc ;; ssd1306DataEnd)
           (fillAreaWithByte_rows sr sc rows cols b)); [| | lia].
  - intros i s Hi. rewrite fillAreaWithByte_rows_step, ltb_min.
    destruct (Z.ltb_spec i (Z.min (sr + rows) NUM_ROWS)) as [L|]; [|reflexivity].
    rewrite u8_small by (unfold NUM_ROWS in L; lia). reflexivity.
  - intros i Hi. apply row_frames, fillAreaWithByte_cols_closed, Hsc.
Qed.

Lemma drawImage_cols_closed (sc cols : Z) (image : array) (ix0 : Z) :
  0 <= sc ->
  streams (drawImage_cols sc cols image ix0 sc)
    (map (fun col => image (ix0 + (col - sc)))
       (upto sc (Z.min (sc + cols) NUM_COLUMNS))).
Proof.
  intros Hsc. rewrite <- flat_map_single.
  apply (streams_ext
           ((fun col => drawImage_cols sc cols image (ix0 + (col - sc)) col) sc)).
  { intros s. cbv beta. replace (ix0 + (sc - sc)) with ix0 by lia. reflexivity. }
  apply (counted_loop streams streams_ext streams_skip streams_seq
           (Z.min (sc + cols) NUM_COLUMNS)
           (fun col => ssd1306DataPutByte (pgm_read_byte image (ix0 + (col - sc))))
           (fun col => drawImage_cols sc cols image (ix0 + (col - sc)) col));
    [| intros; apply streams_put | lia].
  intros i s Hi. rewrite drawImage_cols_step, ltb_min.
  destruct (Z.ltb_spec i (Z.min (sc + cols) NUM_COLUMNS)) as [L|]; [|reflexivity].
  rewrite u8_small by (unfold NUM_COLUMNS in L; lia).
  replace (ix0 + (i - sc) + 1) with (ix0 + (i + 1 - sc)) by lia. reflexivity.
Qed.

Lemma drawImage_frames_of (sr sc rows cols : Z) (image : array) :
  0 <= sr -> 0 <= sc ->
  frames_of (drawImage sr sc rows cols image)
    (drawImage_frames sr sc rows cols image).
Proof.
  intros Hsr Hsc. unfold drawImage, drawImage_frames.
  apply (counted_loop frames_of frames_of_ext frames_of_skip frames_of_seq
           (Z.min (sr + rows) NUM_ROWS)
           (fun row => setPosition row sc ;; ssd1306DataBegin ;;
                       drawImage_cols sc cols image ((row - sr) * cols) sc ;;
                       ssd1306DataEnd)
           (drawImage_rows sr sc rows cols image)); [| | lia].
  - intros i s Hi. rewrite drawImage_rows_step, ltb_min.
    destruct (Z.ltb_spec i (Z.min (sr + rows) NUM_ROWS)) as [L|]; [|reflexivity].
    rewrite u8_small by (unfold NUM_ROWS in L; lia). reflexivity.
  - intros i Hi. apply row_frames, drawImage_cols_closed, Hsc.
Qed.

(** ** Every public method but [initialize] and [invertData] is a
    sequence of complete frames *)

Lemma public_frames (font6x8 font8x16 : array) (op : public_op) :
  op <> Initialize -> (forall b, op <> InvertData b) ->
  exists fs, frames_of (run font6x8 font8x16 op) fs.
Proof.
  intros NI ND. destruct op; cbn [run].
  - congruence.
  - eexists. apply frames_of_setPosition.
  - exfalso. eapply ND. reflexivity.
  - apply fillScreen_rows_frames.
  - eexists. apply text_frames_of.
  - unfold text2x. destruct (row >? NUM_ROWS - 2).
    + eexists. apply frames_of_skip.
    + destruct (text2x_loop_streams font8x16 0 str column) as [p Hp].
      destruct (text2x_loop_streams font8x16 8 str column) as [q Hq].
      eexists.
      apply (frames_of_ext
               ((setPosition row column ;; ssd1306DataBegin ;;
                 text2x_loop font8x16 0 str column ;; ssd1306DataEnd) ;;
                (setPosition (u8 (row + 1)) column ;; ssd1306DataBegin ;;
                 text2x_loop font8x16 8 str column ;; ssd1306DataEnd)));
        [intros s; unfold seq; reflexivity|].
      apply frames_of_seq; apply row_frames; eassumption.
  - apply fillScreen_rows_frames.
  - apply fillAreaWithByte_rows_frames.
  - apply fillAreaWithBytes_rows_frames.
  - apply drawImage_rows_frames.
  - eexists. unfold setContrast.
    apply (frames_of_ext
             (ssd1306CmdBegin ;;
              (i2cSendByte CMD_SET_CONTRAST ;; i2cSendByte level) ;;
              ssd1306CmdEnd)); [intros s; unfold seq; reflexivity|].
    apply frames_of_command.
    apply (sends_seq _ _ [CMD_SET_CONTRAST] [level]); apply sends_byte.
  - eexists. unfold invertScreen, ssd1306SendCommand.
    apply frames_of_command, sends_byte.
  - eexists. unfold sleep, ssd1306SendCommand.
    apply frames_of_command, sends_byte.
Qed.

(* ===================================================================== *)
(** * The link transmitter *)

Lemma waveform_drive (ws : list pin_write) (s : state) :
  waveform ws s = drive_seq (levels s) ws.
Proof.
  revert s. induction ws as [|w ws IH]; intros s; [reflexivity|].
  cbn [waveform drive_seq]. rewrite IH, <- !levels_exec. reflexivity.
Qed.

Lemma drive_seq_bit (sda d : bool) (rest : list pin_write) :
  drive_seq (false, sda) (bit_ops d ++ rest) =
  [(false, d); (true, d); (false, d)] ++ drive_seq (false, d) rest.
Proof. destruct d; reflexivity. Qed.

(** C7. For every byte value, [i2cSendByte] performs exactly this sequence
    of line operations: for bit 7 down to bit 0, write DATA to the bit
    value, then CLOCK high, then CLOCK low; then DATA high and one more
    CLOCK high, CLOCK low.  Entered with CLOCK low, every DATA write happens
    while CLOCK is low, as the sequence of line levels shows.  The method
    writes pins only: the state it returns is the replay of these writes,
    and no line is ever read. *)
Theorem i2cSendByte_line_sequence (b : Z) (s : state) :
  sent (i2cSendByte b) s =
    flat_map
      (fun i => [if Z.testbit b i then W_SDA_high else W_SDA_low;
                 W_SCL_high; W_SCL_low])
      [7; 6; 5; 4; 3; 2; 1; 0]
    ++ [W_SDA_high; W_SCL_high; W_SCL_low]
  /\ i2cSendByte b s = emit (sent (i2cSendByte b) s) s
  /\ (scl_level s = false ->
      waveform (sent (i2cSendByte b) s) s =
        flat_map
          (fun i => let d := Z.testbit b i in [(false, d); (true, d); (false, d)])
          [7; 6; 5; 4; 3; 2; 1; 0]
        ++ [(false, true); (true, true); (false, true)]).
Proof.
  rewrite (sent_emit _ _ _ (i2cSendByte_emit b s)).
  split; [reflexivity|]. split; [apply i2cSendByte_emit|].
  intros L. rewrite waveform_drive. unfold levels. rewrite L.
  unfold byte_ops. cbn [flat_map]. rewrite app_nil_r, <- !app_assoc.
  rewrite !drive_seq_bit. reflexivity.
Qed.

Lemma i2cSendByte_line_sequence_witness :
  scl_level (i2cSendBegin (SSD1306Display 0 0)) = false /\
  waveform (sent (i2cSendByte 0xA5) (i2cSendBegin (SSD1306Display 0 0)))
    (i2cSendBegin (SSD1306Display 0 0)) =
  [(false, true); (true, true); (false, true);
   (false, false); (true, false); (false, false);
   (false, true); (true, true); (false, true);
   (false, false); (true, false); (false, false);
   (false, false); (true, false); (false, false);
   (false, true); (true, true); (false, true);
   (false, false); (true, false); (false, false);
   (false, true); (true, true); (false, true);
   (false, true); (true, true); (false, true)].
Proof.
  split; [reflexivity|].
  exact (proj2 (proj2 (i2cSendByte_line_sequence 0xA5
                         (i2cSendBegin (SSD1306Display 0 0)))) eq_refl).
Defined.

(* ===================================================================== *)
(** * The addressing model *)

Lemma high_nibble (column : Z) :
  0 <= column < 128 -> Z.land (Z.shiftr column 4) 15 = Z.shiftr column 4.
Proof.
  intros H. change 15 with (Z.ones 4). rewrite Z.land_ones by lia.
  rewrite Z.shiftr_div_pow2 by lia. change (2 ^ 4) with 16.
  apply Z.mod_small. Z.div_mod_to_equations. lia.
Qed.

Lemma lor_small (base x : Z) :
  0 <= base <= 255 -> 0 <= x <= 255 -> 0 <= Z.lor base x <= 255.
Proof.
  intros Hb Hx.
  assert (0 <= Z.lor base x) by (apply Z.lor_nonneg; lia).
  destruct (Z.eq_dec (Z.lor base x) 0) as [->|N]; [lia|].
  assert (Z.log2 (Z.lor base x) < 8); [|apply Z.log2_lt_pow2 in H0; lia].
  rewrite Z.log2_lor by lia.
  apply Z.max_lub_lt.
  - destruct (Z.eq_dec base 0) as [->|]; [reflexivity|].
    apply Z.log2_lt_pow2; lia.
  - destruct (Z.eq_dec x 0) as [->|]; [reflexivity|].
    apply Z.log2_lt_pow2; lia.
Qed.

Lemma position_bytes_u8 (row column : Z) :
  0 <= row < 8 -> 0 <= column < 128 ->
  map u8 (position_bytes row column) = position_bytes row column.
Proof.
  intros Hr Hc. unfold position_bytes. cbn [map].
  assert (0 <= Z.shiftr column 4 <= 255).
  { rewrite Z.shiftr_div_pow2 by lia. change (2 ^ 4) with 16.
    Z.div_mod_to_equations. lia. }
  assert (0 <= Z.land column 15 <= 255).
  { change 15 with (Z.ones 4). rewrite Z.land_ones by lia. change (2 ^ 4) with 16.
    Z.div_mod_to_equations. lia. }
  rewrite !u8_small by (apply lor_small; lia). reflexivity.
Qed.

Lemma setPosition_frames_in (row column : Z) :
  0 <= row < 8 -> 0 <= column < 128 ->
  setPosition_frames row column = [Command (position_bytes row column)].
Proof.
  intros Hr Hc. unfold setPosition_frames, NUM_ROWS, NUM_COLUMNS.
  destruct (Z.geb_spec row 8); [lia|]. destruct (Z.geb_spec column 128); [lia|].
  cbn [orb]. unfold position_bytes. rewrite high_nibble by lia. reflexivity.
Qed.

Lemma setPosition_frames_out (row column : Z) :
  8 <= row \/ 128 <= column -> setPosition_frames row column = [].
Proof.
  intros H. unfold setPosition_frames, NUM_ROWS, NUM_COLUMNS.
  destruct (Z.geb_spec row 8), (Z.geb_spec column 128); try reflexivity; lia.
Qed.

Lemma command_frame_u8 (p : list Z) :
  map u8 (command_frame p) = command_frame (map u8 p).
Proof. reflexivity. Qed.

Lemma data_frame_u8 (p : list Z) : map u8 (data_frame p) = data_frame (map u8 p).
Proof. reflexivity. Qed.

(** C1. [setPosition] with [row >= 8] or [column >= 128] returns with the
    state untouched, so nothing goes on the link; otherwise the link
    carries exactly one command frame with the three payload bytes
    [0xB0 | row], [0x10 | (column >> 4)] and [0x00 | (column & 0x0f)]. *)
Theorem setPosition_link (row column : Z) (s : state) :
  is_u8 row -> is_u8 column ->
  if (row >=? 8) || (column >=? 128) then
    setPosition row column s = s /\
    sent (setPosition row column) s = [] /\
    on_link (setPosition row column) s = []
  else
    sent (setPosition row column) s =
      frame_ops (command_frame (position_bytes row column)) /\
    on_link (setPosition row column) s =
      [command_frame (position_bytes row column)].
Proof.
  intros Hr Hc. unfold is_u8 in *.
  pose proof (frames_of_setPosition row column) as F.
  destruct (Z.geb_spec row 8) as [R|R]; cbn [orb];
    [|destruct (Z.geb_spec column 128) as [C|C]].
  - rewrite setPosition_frames_out in F by lia.
    split; [apply F|]. split; [apply sent_unchanged, F|].
    apply (frames_of_on_link _ _ s F).
  - rewrite setPosition_frames_out in F by lia.
    split; [apply F|]. split; [apply sent_unchanged, F|].
    apply (frames_of_on_link _ _ s F).
  - rewrite setPosition_frames_in in F by lia. split.
    + rewrite (frames_of_sent _ _ s F). unfold link_ops. cbn [map flat_map encode].
      apply app_nil_r.
    + rewrite (frames_of_on_link _ _ s F). cbn [map encode].
      rewrite command_frame_u8, position_bytes_u8 by lia. reflexivity.
Qed.

Lemma setPosition_link_witness :
  on_link (setPosition 2 37) (SSD1306Display 0 0x30) = [[0x78; 0x00; 0xB2; 0x12; 0x05]].
Proof.
  exact (proj2 (setPosition_link 2 37 (SSD1306Display 0 0x30)
                  ltac:(unfold is_u8; lia) ltac:(unfold is_u8; lia))).
Defined.

(* ===================================================================== *)
(** * Rendering operations *)

(** Two loops with the same test, the same step and the same body are the
    same loop. *)
Lemma loops_agree {T : Type} (m : T -> nat) (cond : T -> bool) (next : T -> T)
  (body G1 G2 : T -> cmd) :
  (forall t s, G1 t s = if cond t then G1 (next t) (body t s) else s) ->
  (forall t s, G2 t s = if cond t then G2 (next t) (body t s) else s) ->
  (forall t, cond t = true -> (m (next t) < m t)%nat) ->
  forall t s, G1 t s = G2 t s.
Proof.
  intros step1 step2 dec t.
  induction t as [t IH] using (well_founded_induction (well_founded_ltof T m)).
  intros s. rewrite step1, step2. destruct (cond t) eqn:C; [|reflexivity].
  apply IH, dec, C.
Qed.

Lemma fillAreaWithBytes_cols_one (sc cols : Z) (pattern : array) (col : Z)
  (s : state) :
  fillAreaWithBytes_cols sc cols pattern 1 0 col s =
  fillAreaWithByte_cols sc cols (pattern 0) col s.
Proof.
  revert col s.
  apply (loops_agree (below NUM_COLUMNS)
           (fun col => (col <? sc + cols) && (col <? NUM_COLUMNS))
           (fun col => u8 (col + 1))
           (fun _ => ssd1306DataPutByte (pattern 0))).
  - intros col s. rewrite fillAreaWithBytes_cols_step. reflexivity.
  - intros col s. apply fillAreaWithByte_cols_step.
  - still_below.
Qed.

Lemma fillAreaWithBytes_rows_one (sr sc rows cols : Z) (pattern : array)
  (row : Z) (s : state) :
  fillAreaWithBytes_rows sr sc rows cols pattern 1 row s =
  fillAreaWithByte_rows sr sc rows cols (pattern 0) row s.
Proof.
  revert row s.
  apply (loops_agree (below NUM_ROWS)
           (fun row => (row <? sr + rows) && (row <? NUM_ROWS))
           (fun row => u8 (row + 1))
           (fun row => setPosition row sc ;; ssd1306DataBegin ;;
                       fillAreaWithByte_cols sc cols (pattern 0) sc ;;
                       ssd1306DataEnd)).
  - intros row s. rewrite fillAreaWithBytes_rows_step. unfold seq.
    rewrite fillAreaWithBytes_cols_one. reflexivity.
  - intros row s. apply fillAreaWithByte_rows_step.
  - still_below.
Qed.

(** C6. For every rectangle and byte [b], [fillAreaWithBytes] with the
    one-byte pattern [b] and pattern size 1 returns the very state
    [fillAreaWithByte] returns with [b]: the same pin writes, in the same
    order, go on the link, and a receiver hears the same frames. *)
Theorem fillAreaWithBytes_one_byte (startRow startColumn rows columns b : Z)
  (s : state) :
  fillAreaWithBytes startRow startColumn rows columns (table [b]) 1 s =
    fillAreaWithByte startRow startColumn rows columns b s /\
  sent (fillAreaWithBytes startRow startColumn rows columns (table [b]) 1) s =
    sent (fillAreaWithByte startRow startColumn rows columns b) s /\
  on_link (fillAreaWithBytes startRow startColumn rows columns (table [b]) 1) s =
    on_link (fillAreaWithByte startRow startColumn rows columns b) s.
Proof.
  assert (fillAreaWithBytes startRow startColumn rows columns (table [b]) 1 s =
          fillAreaWithByte startRow startColumn rows columns b s) as E.
  { unfold fillAreaWithBytes, fillAreaWithByte.
    apply (fillAreaWithBytes_rows_one startRow startColumn rows columns (table [b])). }
  unfold on_link, hears, sent. rewrite E. auto.
Qed.

Lemma text_payload_past (font : array) (str : string) (col : Z) :
  123 <= col -> text_payload font str col = [].
Proof.
  intros H. unfold NUM_COLUMNS.
  destruct str; cbn [text_payload]; unfold NUM_COLUMNS;
    destruct (Z.leb_spec col (128 - 6)); try lia;
    rewrite andb_false_r; reflexivity.
Qed.

(** C10. [text] does not check its column: for every [row < 8], every
    [column >= 123] and every string, no glyph byte is sent, yet one data
    frame is opened and closed, carrying the address byte [0x78] and the
    data control byte [0x40] alone; when [column <= 127] the position
    command frame comes before it. *)
Theorem text_past_last_glyph_column (font : array) (row column : Z)
  (str : string) (s : state) :
  0 <= row < 8 -> 123 <= column <= 255 ->
  on_link (text font row column str) s =
    (if column <=? 127 then [command_frame (position_bytes row column)] else [])
    ++ [[0x78; 0x40]] /\
  data_payload (on_link (text font row column str) s) = [] /\
  sent (text font row column str) s =
    (if column <=? 127 then frame_ops (command_frame (position_bytes row column))
     else [])
    ++ frame_ops (data_frame []).
Proof.
  intros Hr Hc.
  pose proof (text_frames_of font row column str) as F.
  unfold text_frames, NUM_ROWS in F.
  destruct (Z.gtb_spec row (8 - 1)); [lia|].
  rewrite text_payload_past in F by lia.
  rewrite (frames_of_on_link _ _ s F), (frames_of_sent _ _ s F).
  destruct (Z.leb_spec column 127).
  - rewrite setPosition_frames_in by lia. unfold link_ops.
    cbn [map app flat_map encode].
    rewrite command_frame_u8, position_bytes_u8, app_nil_r by lia.
    repeat split; reflexivity.
  - rewrite setPosition_frames_out by lia. unfold link_ops.
    cbn [map app flat_map encode]. rewrite app_nil_r.
    repeat split; reflexivity.
Qed.

Lemma text_past_last_glyph_column_witness :
  on_link (text (fun k => k mod 256) 3 125 "clipped") (SSD1306Display 0 0x30) =
  [[0x78; 0x00; 0xB3; 0x17; 0x0D]; [0x78; 0x40]].
Proof.
  exact (proj1 (text_past_last_glyph_column (fun k => k mod 256) 3 125 "clipped"
                  (SSD1306Display 0 0x30) ltac:(lia) ltac:(lia))).
Defined.

(** C3 (the code departs from it).  A character below the space, such as
    the newline, is not mapped to glyph 0: [*s - 32] is negative and wraps
    to [224 + *s] in the [uint8_t] index, so [text] sends the six table
    bytes at offset [234 * 6] for ["\n"], and [text2x] computes the same
    index. *)
Theorem newline_glyph_index (font : array) (s : state) :
  is_bytes font -> fInvertData s = false ->
  text_c (deref (String "010" EmptyString)) = 234 /\
  text2x_c (deref (String "010" EmptyString)) = 234 /\
  on_link (text font 0 0 (String "010" EmptyString)) s =
    [[0x78; 0x00; 0xB0; 0x10; 0x00];
     0x78 :: 0x40 :: map font [1404; 1405; 1406; 1407; 1408; 1409]].
Proof.
  intros Hf Hs. split; [reflexivity|]. split; [reflexivity|].
  rewrite (frames_of_on_link _ _ s (text_frames_of font 0 0 _)), Hs.
  unfold text_frames. change (0 >? NUM_ROWS - 1) with false. cbv iota.
  rewrite setPosition_frames_in by lia.
  cbn [map app encode]. rewrite command_frame_u8, data_frame_u8.
  f_equal. f_equal. unfold data_frame. f_equal. f_equal.
  change (text_payload font (String "010" EmptyString) 0)
    with (map font [1404; 1405; 1406; 1407; 1408; 1409]).
  rewrite !map_map. cbn [map]. unfold put.
  rewrite !u8_small; auto; rewrite ?u8_small; apply Hf.
Qed.

Lemma newline_glyph_index_witness :
  on_link (text (fun k => k mod 256) 0 0 (String "010" EmptyString))
    (SSD1306Display 0 0x30) =
  [[0x78; 0x00; 0xB0; 0x10; 0x00]; [0x78; 0x40; 124; 125; 126; 127; 128; 129]].
Proof.
  refine (proj2 (proj2 (newline_glyph_index (fun k => k mod 256)
                          (SSD1306Display 0 0x30) _ eq_refl))).
  intros k. pose proof (Z.mod_pos_bound k 256). lia.
Defined.

Lemma offset_table_bytes : is_bytes offset_table.
Proof. intros k. unfold offset_table. pose proof (Z.mod_pos_bound k 256). lia. Qed.

Lemma put_false_byte (b : Z) : 0 <= b <= 255 -> u8 (put false b) = b.
Proof. intros H. unfold put. rewrite !u8_small; auto; rewrite u8_small; auto. Qed.

(** C2 (as stated it fails).  With the sample table, ["Hi"] at row 2,
    column 0 is not sent as glyph 40 followed by glyph 41: the second
    glyph is not the one at index 41. *)
Lemma text_Hi_second_glyph_not_41 :
  fInvertData idle_display = false /\
  on_link (text offset_table 2 0 "Hi") idle_display <>
  [command_frame (position_bytes 2 0);
   data_frame (glyph6 offset_table 40 ++ glyph6 offset_table 41)].
Proof. split; [reflexivity|]. vm_compute. discriminate. Qed.

(** C2 (amended).  [text(2, 0, "Hi")] with data-invert off puts on the
    link one position command frame for row 2, column 0, then one data
    frame of 12 payload bytes: the six table bytes of glyph 40 (['H'], code
    72 - 32) followed by the six table bytes of glyph 73 (['i'], code
    105 - 32). *)
Theorem text_Hi_link (font : array) (s : state) :
  is_bytes font -> fInvertData s = false ->
  on_link (text font 2 0 "Hi") s =
    [command_frame (position_bytes 2 0);
     data_frame (glyph6 font 40 ++ glyph6 font 73)] /\
  List.length (glyph6 font 40 ++ glyph6 font 73) = 12%nat /\
  text_c (deref "H") = 40 /\ text_c (deref "i") = 73.
Proof.
  intros Hf Hs. split; [|repeat split; reflexivity].
  rewrite (frames_of_on_link _ _ s (text_frames_of font 2 0 "Hi")), Hs.
  unfold text_frames. change (2 >? NUM_ROWS - 1) with false. cbv iota.
  rewrite setPosition_frames_in by lia.
  cbn [map app encode]. rewrite command_frame_u8, data_frame_u8.
  rewrite position_bytes_u8 by lia.
  f_equal. f_equal. f_equal.
  change (text_payload font "Hi" 0) with (glyph6 font 40 ++ glyph6 font 73).
  rewrite map_map. rewrite <- (map_id (glyph6 font 40 ++ glyph6 font 73)) at 2.
  apply map_ext_in. intros b Hb. apply put_false_byte.
  apply in_app_or in Hb. unfold glyph6 in Hb.
  destruct Hb as [Hb|Hb]; apply in_map_iff in Hb; destruct Hb as (k & <- & _);
    apply Hf.
Qed.

Lemma text_Hi_link_witness :
  on_link (text offset_table 2 0 "Hi") idle_display =
  [[0x78; 0x00; 0xB2; 0x10; 0x00];
   [0x78; 0x40; 240; 241; 242; 243; 244; 245; 182; 183; 184; 185; 186; 187]].
Proof.
  exact (proj1 (text_Hi_link offset_table idle_display offset_table_bytes eq_refl)).
Defined.

(** ** Rectangles *)

Lemma in_upto (x start stop : Z) : In x (upto start stop) <-> start <= x < stop.
Proof.
  unfold upto. rewrite in_map_iff. split.
  - intros (k & <- & Hk). apply in_seq in Hk. lia.
  - intros H. exists (Z.to_nat (x - start)). split; [lia|].
    apply in_seq. lia.
Qed.

Lemma upto_shift (start n : Z) :
  upto start (start + n) = map (fun i => start + i) (upto 0 n).
Proof.
  unfold upto. rewrite map_map.
  replace (start + n - start) with (n - 0) by lia. reflexivity.
Qed.

Lemma flat_map_over_map {A B C : Type} (f : B -> list C) (g : A -> B) (l : list A) :
  flat_map f (map g l) = flat_map (fun x => f (g x)) l.
Proof. induction l as [|x l IH]; [reflexivity|]. cbn. now rewrite IH. Qed.

Lemma map_over_flat_map {A B C : Type} (f : B -> C) (g : A -> list B) (l : list A) :
  map f (flat_map g l) = flat_map (fun x => map f (g x)) l.
Proof.
  induction l as [|x l IH]; [reflexivity|]. cbn. now rewrite map_app, IH.
Qed.

Lemma flat_map_agree {A B : Type} (f g : A -> list B) (l : list A) :
  (forall x, In x l -> f x = g x) -> flat_map f l = flat_map g l.
Proof.
  induction l as [|x l IH]; intros H; [reflexivity|]. cbn.
  rewrite (H x (or_introl eq_refl)), IH; [reflexivity|].
  intros y Hy. apply H. now right.
Qed.

(** Counting in a list of rows, each a command frame and a data frame. *)
Lemma rows_command_count {A : Type} (c d : A -> list Z) (l : list A) :
  List.length
    (filter is_command_frame
       (flat_map (fun i => [command_frame (c i); data_frame (d i)]) l)) =
  List.length l.
Proof. induction l as [|x l IH]; [reflexivity|]. cbn. now rewrite IH. Qed.

Lemma rows_data_payload {A : Type} (c d : A -> list Z) (l : list A) :
  data_payload (flat_map (fun i => [command_frame (c i); data_frame (d i)]) l) =
  flat_map d l.
Proof.
  unfold data_payload. induction l as [|x l IH]; [reflexivity|].
  cbn [flat_map app]. rewrite <- IH. reflexivity.
Qed.

Lemma flat_map_length_const {A B : Type} (d : A -> list B) (l : list A) (n : nat) :
  (forall x, List.length (d x) = n) ->
  List.length (flat_map d l) = (List.length l * n)%nat.
Proof.
  intros H. induction l as [|x l IH]; [reflexivity|].
  cbn. rewrite length_app, H, IH. reflexivity.
Qed.

(** C5 (as stated it fails).  The empty rectangle of one row at column 128
    meets both bounds ([startRow + imageRows <= 8] and
    [startColumn + imageColumns <= 128]), yet [drawImage] sends no position
    command for its row: [setPosition] refuses column 128. *)
Lemma drawImage_edge_no_position :
  0 + 1 <= 8 /\ 128 + 0 <= 128 /\ fInvertData idle_display = false /\
  on_link (drawImage 0 128 1 0 offset_table) idle_display = [[0x78; 0x40]] /\
  List.length
    (filter is_command_frame
       (on_link (drawImage 0 128 1 0 offset_table) idle_display)) <> Z.to_nat 1.
Proof. repeat split; try lia; vm_compute; discriminate. Qed.

(** C5 (amended).  For every rectangle inside the screen that starts on a
    screen column ([startRow + imageRows <= 8], [startColumn <= 127],
    [startColumn + imageColumns <= 128]) and with data-invert off,
    [drawImage] sends, for image row [i] in order, the position command of
    display row [startRow + i] at [startColumn] and then one data frame with
    the bytes [image[i * imageColumns + j]] for [j = 0 .. imageColumns - 1]:
    [imageRows] position command frames and [imageRows * imageColumns]
    payload bytes in all. *)
Theorem drawImage_inside (startRow startColumn imageRows imageColumns : Z)
  (image : array) (s : state) :
  0 <= startRow -> 0 <= imageRows -> startRow + imageRows <= 8 ->
  0 <= startColumn <= 127 -> 0 <= imageColumns ->
  startColumn + imageColumns <= 128 ->
  is_bytes image -> fInvertData s = false ->
  let frames := on_link (drawImage startRow startColumn imageRows imageColumns image) s in
  frames =
    flat_map
      (fun i =>
         [command_frame (position_bytes (startRow + i) startColumn);
          data_frame (map (fun j => image (i * imageColumns + j)) (upto 0 imageColumns))])
      (upto 0 imageRows) /\
  List.length (filter is_command_frame frames) = Z.to_nat imageRows /\
  List.length (data_payload frames) = Z.to_nat (imageRows * imageColumns).
Proof.
  intros Hsr Hrows Hr Hsc Hcols Hc Himg Hinv frames.
  assert (frames =
    flat_map
      (fun i =>
         [command_frame (position_bytes (startRow + i) startColumn);
          data_frame (map (fun j => image (i * imageColumns + j)) (upto 0 imageColumns))])
      (upto 0 imageRows)) as E.
  { unfold frames.
    rewrite (frames_of_on_link _ _ s
               (drawImage_frames_of startRow startColumn imageRows imageColumns
                  image Hsr (proj1 Hsc))).
    rewrite Hinv. unfold drawImage_frames, NUM_ROWS, NUM_COLUMNS.
    rewrite !Z.min_l by lia. rewrite !upto_shift.
    rewrite flat_map_over_map, map_over_flat_map.
    apply flat_map_agree. intros i Hi. apply in_upto in Hi.
    rewrite setPosition_frames_in by lia.
    cbn [map app encode]. rewrite command_frame_u8, data_frame_u8.
    rewrite position_bytes_u8 by lia.
    f_equal. f_equal. f_equal. rewrite !map_map.
    apply map_ext. intros j. rewrite put_false_byte by apply Himg.
    f_equal. lia. }
  rewrite E. split; [reflexivity|]. split.
  - rewrite rows_command_count. rewrite upto_length. f_equal. lia.
  - rewrite rows_data_payload.
    rewrite (flat_map_length_const _ _ (Z.to_nat imageColumns)).
    + rewrite upto_length. lia.
    + intros i. rewrite length_map, upto_length. f_equal. lia.
Qed.

Lemma drawImage_inside_witness :
  on_link (drawImage 6 126 2 2 offset_table) idle_display =
  [[0x78; 0x00; 0xB6; 0x17; 0x0E]; [0x78; 0x40; 0; 1];
   [0x78; 0x00; 0xB7; 0x17; 0x0E]; [0x78; 0x40; 2; 3]].
Proof.
  exact (proj1 (drawImage_inside 6 126 2 2 offset_table idle_display
                  ltac:(lia) ltac:(lia) ltac:(lia) ltac:(lia) ltac:(lia) ltac:(lia)
                  offset_table_bytes eq_refl)).
Defined.

Lemma empty_rows_payload (inv : bool) (sc : Z) (l : list Z) :
  data_payload
    (map (fun f => map u8 (encode inv f))
       (flat_map (fun row => setPosition_frames row sc ++ [Data []]) l)) = [].
Proof.
  induction l as [|row l IH]; [reflexivity|].
  cbn [flat_map]. rewrite map_app. unfold data_payload in *.
  rewrite flat_map_app, IH, app_nil_r.
  unfold setPosition_frames.
  destruct ((row >=? NUM_ROWS) || (sc >=? NUM_COLUMNS)); reflexivity.
Qed.

(** C8 (as stated it fails).  A one-by-one rectangle at column 128 lies
    outside the screen, yet [fillAreaWithByte] still opens and closes a
    data frame for its row: the address byte and the data control byte go
    on the link. *)
Lemma fillAreaWithByte_outside_still_transmits :
  128 >= 128 /\
  on_link (fillAreaWithByte 0 128 1 1 0xFF) idle_display = [[0x78; 0x40]] /\
  sent (fillAreaWithByte 0 128 1 1 0xFF) idle_display <> [].
Proof. repeat split; try lia; vm_compute; discriminate. Qed.

(** C8 (amended).  For every rectangle outside the screen or empty
    ([startRow >= 8], [startColumn >= 128], [rows = 0] or [columns = 0]),
    [fillAreaWithByte] writes no display data: no data frame carries a
    payload byte.  With [startRow >= 8] or [rows = 0] nothing at all goes on
    the link.  Otherwise every row from [startRow] to
    [min (startRow + rows) 8 - 1] still gets an empty data frame (address
    byte and data control byte), after a position command frame when
    [startColumn < 128]. *)
Theorem fillAreaWithByte_outside (startRow startColumn rows columns b : Z)
  (s : state) :
  is_u8 startRow -> is_u8 startColumn -> is_u8 rows -> is_u8 columns ->
  startRow >= 8 \/ startColumn >= 128 \/ rows = 0 \/ columns = 0 ->
  let fill := fillAreaWithByte startRow startColumn rows columns b in
  data_payload (on_link fill s) = [] /\
  (startRow >= 8 \/ rows = 0 -> fill s = s /\ sent fill s = []) /\
  (startRow < 8 -> rows <> 0 ->
   on_link fill s =
     flat_map
       (fun row =>
          (if startColumn <? 128
           then [command_frame (position_bytes row startColumn)] else [])
          ++ [[0x78; 0x40]])
       (upto startRow (Z.min (startRow + rows) 8))).
Proof.
  intros Hsr Hsc Hrows Hcols Hout fill. unfold is_u8 in *.
  pose proof (fillAreaWithByte_frames_of startRow startColumn rows columns b
                (proj1 Hsr) (proj1 Hsc)) as F.
  fold fill in F. unfold fillAreaWithByte_frames, NUM_ROWS, NUM_COLUMNS in F.
  assert (startRow >= 8 \/ rows = 0 -> fill s = s /\ sent fill s = []) as Hnone.
  { intros H. rewrite (upto_nil startRow) in F by lia. split; [apply F | apply sent_unchanged, F]. }
  destruct (Z_lt_dec startRow 8) as [R|R];
    [destruct (Z.eq_dec rows 0) as [Z0|NZ]|].
  - rewrite (upto_nil startRow) in F by lia.
    rewrite (frames_of_on_link _ _ s F). repeat split; try apply Hnone; try lia.
  - assert (upto startColumn (Z.min (startColumn + columns) 128) = []) as P
        by (apply upto_nil; lia).
    rewrite P in F. cbn [map] in F.
    rewrite (frames_of_on_link _ _ s F).
    split; [apply empty_rows_payload|]. split; [exact Hnone|].
    intros _ _. rewrite map_over_flat_map. apply flat_map_agree.
    intros row Hrow. apply in_upto in Hrow.
    destruct (Z.ltb_spec startColumn 128).
    + rewrite setPosition_frames_in by lia. cbn [map app encode].
      rewrite command_frame_u8, position_bytes_u8 by lia. reflexivity.
    + rewrite setPosition_frames_out by lia. reflexivity.
  - rewrite (upto_nil startRow) in F by lia.
    rewrite (frames_of_on_link _ _ s F). repeat split; try apply Hnone; try lia.
Qed.

Lemma fillAreaWithByte_outside_witness :
  on_link (fillAreaWithByte 6 10 5 0 0xFF) idle_display =
  [[0x78; 0x00; 0xB6; 0x10; 0x0A]; [0x78; 0x40];
   [0x78; 0x00; 0xB7; 0x10; 0x0A]; [0x78; 0x40]].
Proof.
  refine (proj2 (proj2 (fillAreaWithByte_outside 6 10 5 0 0xFF idle_display
                          _ _ _ _ _)) _ _); unfold is_u8; try lia.
Defined.

(* ===================================================================== *)
(** * Mode control *)

Lemma u8_u8 (x : Z) : u8 (u8 x) = u8 x.
Proof. unfold u8. apply Z.mod_mod. lia. Qed.

Lemma u8_lnot_u8 (x : Z) : u8 (Z.lnot (u8 x)) = u8 (Z.lnot x).
Proof. unfold u8, Z.lnot. Z.div_mod_to_equations. lia. Qed.

(** The complement of a byte, as the link carries it. *)
Lemma complement_byte (b : Z) : 0 <= b <= 255 -> u8 (Z.lnot b) = 255 - b.
Proof. intros H. unfold u8, Z.lnot. Z.div_mod_to_equations. lia. Qed.

Lemma complement_encoded (f : frame) :
  complement_data (map u8 (encode false f)) = map u8 (encode true f).
Proof.
  destruct f as [p|p]; [reflexivity|].
  unfold complement_data. cbn [encode data_frame map is_data_frame firstn skipn app].
  change (u8 SSD1306_CTL_DATA =? SSD1306_CTL_DATA) with true. cbv iota.
  f_equal. f_equal. rewrite !map_map. apply map_ext. intros b. unfold put.
  now rewrite !u8_u8, u8_lnot_u8.
Qed.

(** C4. [invertData] itself puts nothing on the link.  After
    [invertData(true)] a pixel byte [b] handed to [ssd1306DataPutByte] is
    clocked out as its bitwise complement mod 256, after [invertData(false)]
    as [b] itself.  For every drawing operation there is one list of frames
    the call supplies, whatever the flag; the link carries it with every
    pixel byte encoded by the flag, so the frames heard with the flag on are
    the frames heard with the flag off with every data payload byte
    complemented, and the command frames are the same. *)
Theorem invertData_complements (font6x8 font8x16 : array) (op : public_op)
  (flag : bool) (b : Z) (s : state) :
  (invertData flag s = set_fInvertData flag s /\
   sent (invertData flag) s = [] /\ on_link (invertData flag) s = []) /\
  sent (ssd1306DataPutByte b) (invertData true s) =
    sent (i2cSendByte (u8 (Z.lnot b))) (invertData true s) /\
  sent (ssd1306DataPutByte b) (invertData false s) =
    sent (i2cSendByte (u8 b)) (invertData false s) /\
  (drawing op = true ->
   (exists fs : list frame,
      forall inv s',
        on_link (run font6x8 font8x16 op) (invertData inv s') =
        map (fun f => map u8 (encode inv f)) fs) /\
   on_link (run font6x8 font8x16 op) (invertData true s) =
     map complement_data (on_link (run font6x8 font8x16 op) (invertData false s))).
Proof.
  split; [|split; [|split]].
  - split; [reflexivity|]. split; [|unfold on_link, hears]; unfold sent;
      cbn [invertData set_fInvertData wire]; rewrite skipn_all; reflexivity.
  - reflexivity.
  - reflexivity.
  - intros D.
    destruct (public_frames font6x8 font8x16 op) as [fs F].
    + intros ->. discriminate.
    + intros f ->. discriminate.
    + split.
      * exists fs. intros inv s'.
        apply (frames_of_on_link _ _ (invertData inv s') F).
      * rewrite !(frames_of_on_link _ _ _ F). cbn [invertData set_fInvertData fInvertData].
        rewrite map_map. apply map_ext. intros f. symmetry. apply complement_encoded.
Qed.

Lemma invertData_complements_witness :
  on_link (run offset_table offset_table (FillAreaWithByte 7 126 1 2 0x0F))
    (invertData true idle_display) =
  [[0x78; 0x00; 0xB7; 0x17; 0x0E]; [0x78; 0x40; 0xF0; 0xF0]].
Proof.
  exact (proj2 (proj2 (proj2 (proj2
           (invertData_complements offset_table offset_table
              (FillAreaWithByte 7 126 1 2 0x0F) true 0 idle_display))) eq_refl)).
Defined.

(* ===================================================================== *)
(** * The lines between calls *)

Lemma initialize_emit (s : state) :
  initialize s =
  emit ([W_SCL_MODE_OUTPUT; W_SDA_MODE_OUTPUT; W_SCL_high; W_SDA_high]
        ++ frame_ops (command_frame initCommands)) s.
Proof.
  rewrite emit_app.
  pose proof (frames_of_command (initialize_loop 0) initCommands
                initialize_loop_sends) as F.
  unfold frames_of, link_ops in F. cbn [map flat_map encode] in F.
  rewrite app_nil_r in F. rewrite <- F. reflexivity.
Qed.

(** C9. Entered with both lines high, every public method returns with
    CLOCK and DATA driven high again, and a receiver on the lines is left
    outside any frame, with no frame cut short: every frame the method
    opened was closed by [i2cSendEnd] before it returned. *)
Theorem public_ops_leave_lines_idle (font6x8 font8x16 : array) (op : public_op)
  (s : state) :
  scl_level s = true -> sda_level s = true ->
  scl_level (run font6x8 font8x16 op s) = true /\
  sda_level (run font6x8 font8x16 op s) = true /\
  rx_active (hears (run font6x8 font8x16 op) s) = false /\
  rx_cut (hears (run font6x8 font8x16 op) s) = 0%nat.
Proof.
  intros Hscl Hsda.
  assert (levels s = (true, true)) as L by (unfold levels; now rewrite Hscl, Hsda).
  assert (forall s', levels s' = (true, true) ->
                     scl_level s' = true /\ sda_level s' = true) as split_levels.
  { unfold levels. intros s' E. now inversion E. }
  destruct op.
  1: { (* initialize *)
    cbn [run]. unfold hears. rewrite (sent_emit _ _ _ (initialize_emit s)).
    pose proof (rx_levels
                  ([W_SCL_MODE_OUTPUT; W_SDA_MODE_OUTPUT; W_SCL_high; W_SDA_high]
                   ++ frame_ops (command_frame initCommands))
                  (listen (scl_level s) (sda_level s)) s eq_refl) as V.
    rewrite <- initialize_emit in V. revert V.
    rewrite Hscl, Hsda, receive_app.
    change (receive (listen true true)
              [W_SCL_MODE_OUTPUT; W_SDA_MODE_OUTPUT; W_SCL_high; W_SDA_high])
      with (listen true true).
    rewrite receive_frame by reflexivity. cbn [rx_scl rx_sda rx_active rx_cut listen].
    intros V. symmetry in V. destruct (split_levels _ V). auto. }
  2: { (* invertData *)
    cbn [run]. unfold hears, sent, scl_level, sda_level in *.
    cbn [invertData set_fInvertData wire PORTC]. rewrite skipn_all. auto. }
  all: match goal with
       | |- context [run _ _ ?o] =>
           destruct (public_frames font6x8 font8x16 o) as [fs F];
           [discriminate | intros; discriminate |];
           destruct (frames_of_hears _ _ s F) as (A & C & _);
           destruct (split_levels _ (frames_of_levels _ _ s F L));
           auto
       end.
Qed.

Lemma public_ops_leave_lines_idle_witness :
  scl_level (run offset_table offset_table (Text2x 3 100 "Hz") idle_display) = true /\
  sda_level (run offset_table offset_table (Text2x 3 100 "Hz") idle_display) = true /\
  rx_active (hears (run offset_table offset_table (Text2x 3 100 "Hz")) idle_display)
    = false /\
  rx_cut (hears (run offset_table offset_table (Text2x 3 100 "Hz")) idle_display)
    = 0%nat.
Proof.
  exact (public_ops_leave_lines_idle offset_table offset_table (Text2x 3 100 "Hz")
           idle_display eq_refl eq_refl).
Defined.

(* ===================================================================== *)
(** * Further properties of the driver *)

(** ** Shared facts *)

Lemma sent_same (c c' : cmd) (s : state) : c s = c' s -> sent c s = sent c' s.
Proof. intros E. unfold sent. now rewrite E. Qed.

Lemma on_link_same (c c' : cmd) (s : state) :
  c s = c' s -> on_link c s = on_link c' s.
Proof. intros E. unfold on_link, hears. now rewrite (sent_same c c' s E). Qed.

Lemma sent_invertData (b : bool) (s : state) : sent (invertData b) s = [].
Proof.
  unfold sent. cbn [invertData set_fInvertData wire]. apply skipn_all.
Qed.

Lemma framed_frames (font6x8 font8x16 : array) (op : public_op) :
  framed op = true -> exists fs, frames_of (run font6x8 font8x16 op) fs.
Proof.
  intros H. apply public_frames.
  - intros ->. discriminate.
  - intros b ->. discriminate.
Qed.

(** Every method but [invertData] is a replay of pin writes. *)
Lemma run_emit (font6x8 font8x16 : array) (op : public_op) (s : state) :
  (forall b, op <> InvertData b) ->
  exists ws, run font6x8 font8x16 op s = emit ws s.
Proof.
  intros ND. destruct op.
  1: { eexists. apply initialize_emit. }
  2: { exfalso. eapply ND. reflexivity. }
  all: match goal with
       | |- context [run _ _ ?o] =>
           destruct (framed_frames font6x8 font8x16 o eq_refl) as [fs F];
           eexists; apply F
       end.
Qed.

Lemma u8_put (inv : bool) (b : Z) : u8 (put inv b) = put inv b.
Proof. unfold put. apply u8_u8. Qed.

(** The frames heard for a run of rows, each a position command and a data
    frame. *)
Lemma rows_on_link (inv : bool) (sc : Z) (payload : Z -> list Z) (l : list Z) :
  (forall row, In row l -> 0 <= row < 8) -> 0 <= sc < 128 ->
  map (fun f => map u8 (encode inv f))
    (flat_map (fun row => setPosition_frames row sc ++ [Data (payload row)]) l) =
  flat_map
    (fun row => [command_frame (position_bytes row sc);
                 data_frame (map (put inv) (payload row))]) l.
Proof.
  intros Hl Hsc. rewrite map_over_flat_map. apply flat_map_agree.
  intros row Hrow. rewrite setPosition_frames_in by auto.
  cbn [map app encode]. rewrite command_frame_u8, data_frame_u8.
  rewrite position_bytes_u8 by auto. rewrite map_map.
  f_equal. f_equal. f_equal. apply map_ext. intros b. apply u8_put.
Qed.

Lemma frame_ops_drive (bytes : list Z) : forallb drives_line (frame_ops bytes) = true.
Proof.
  unfold frame_ops. rewrite !forallb_app. cbn [begin_ops end_ops forallb drives_line andb].
  rewrite andb_true_r. induction bytes as [|b bytes IH]; [reflexivity|].
  cbn [flat_map]. rewrite forallb_app, IH, andb_true_r.
  unfold byte_ops. cbn [flat_map bit_ops app ack_ops forallb].
  repeat match goal with |- context [Z.testbit b ?i] => destruct (Z.testbit b i) end;
    reflexivity.
Qed.

Lemma link_ops_drive (inv : bool) (fs : list frame) :
  forallb drives_line (link_ops inv fs) = true.
Proof.
  unfold link_ops. induction fs as [|f fs IH]; [reflexivity|].
  cbn [map flat_map]. now rewrite forallb_app, frame_ops_drive, IH.
Qed.

Lemma DDRC_emit (ws : list pin_write) (s : state) :
  forallb drives_line ws = true -> DDRC (emit ws s) = DDRC s.
Proof.
  revert s. induction ws as [|w ws IH]; intros s H; [reflexivity|].
  cbn [forallb] in H. apply andb_prop in H. destruct H as [Hw H].
  change (emit (w :: ws) s) with (emit ws (exec w s)).
  rewrite IH by assumption. destruct w; try discriminate; reflexivity.
Qed.

Lemma exec_other_bits (w : pin_write) (s : state) (n : Z) :
  0 <= n < 8 -> n <> SCL_PIN -> n <> SDA_PIN ->
  Z.testbit (PORTC (exec w s)) n = Z.testbit (PORTC s) n /\
  Z.testbit (DDRC (exec w s)) n = Z.testbit (DDRC s) n.
Proof.
  unfold SCL_PIN, SDA_PIN. intros Hn N5 N4.
  destruct w; cbn [exec];
    unfold SCL_MODE_OUTPUT, SDA_MODE_OUTPUT, SCL_high, SCL_low, SDA_high, SDA_low;
    cbn [PORTC DDRC log set_PORTC set_DDRC]; unfold SCL_PIN, SDA_PIN;
    split; try reflexivity;
    first [ apply testbit_reg_set_other; lia | apply testbit_reg_clear_other; lia ].
Qed.

Lemma emit_other_bits (ws : list pin_write) (s : state) (n : Z) :
  0 <= n < 8 -> n <> SCL_PIN -> n <> SDA_PIN ->
  Z.testbit (PORTC (emit ws s)) n = Z.testbit (PORTC s) n /\
  Z.testbit (DDRC (emit ws s)) n = Z.testbit (DDRC s) n.
Proof.
  intros Hn N5 N4. revert s. induction ws as [|w ws IH]; intros s; [auto|].
  change (emit (w :: ws) s) with (emit ws (exec w s)).
  destruct (IH (exec w s)) as [P D].
  destruct (exec_other_bits w s n Hn N5 N4) as [P' D'].
  split; congruence.
Qed.

Lemma levels_high (s : state) :
  levels s = (true, true) -> scl_level s = true /\ sda_level s = true.
Proof. unfold levels. intros E. now inversion E. Qed.

(** ** Initialization *)

(** X1. From any state of the lines, [initialize] makes both pins outputs,
    has one command frame heard on the link, carrying the whole command
    table in order, and leaves both lines high. *)
Theorem initialize_link (s : state) :
  on_link initialize s = [command_frame initCommands] /\
  rx_cut (hears initialize s) = 0%nat /\
  Z.testbit (DDRC (initialize s)) SCL_PIN = true /\
  Z.testbit (DDRC (initialize s)) SDA_PIN = true /\
  scl_level (initialize s) = true /\ sda_level (initialize s) = true.
Proof.
  pose proof (rx_levels
                ([W_SCL_MODE_OUTPUT; W_SDA_MODE_OUTPUT; W_SCL_high; W_SDA_high]
                 ++ frame_ops (command_frame initCommands))
                (listen (scl_level s) (sda_level s)) s eq_refl) as V.
  rewrite <- initialize_emit in V.
  unfold on_link, hears. rewrite (sent_emit _ _ _ (initialize_emit s)).
  rewrite receive_app in *.
  assert (receive (listen (scl_level s) (sda_level s))
            [W_SCL_MODE_OUTPUT; W_SDA_MODE_OUTPUT; W_SCL_high; W_SDA_high] =
          listen true true) as P
      by (destruct (scl_level s), (sda_level s); reflexivity).
  rewrite P in *. rewrite receive_frame in * by reflexivity.
  cbn [rx_frames rx_cut rx_scl rx_sda listen app] in *.
  destruct (levels_high _ (eq_sym V)) as [V1 V2].
  repeat split; auto.
  - rewrite initialize_emit, emit_app, DDRC_emit by apply frame_ops_drive.
    change (DDRC (emit [W_SCL_MODE_OUTPUT; W_SDA_MODE_OUTPUT; W_SCL_high; W_SDA_high] s))
      with (reg_set SDA_PIN (reg_set SCL_PIN (DDRC s))).
    rewrite testbit_reg_set_other by (unfold SDA_PIN, SCL_PIN; lia).
    apply testbit_reg_set_same. unfold SCL_PIN. lia.
  - rewrite initialize_emit, emit_app, DDRC_emit by apply frame_ops_drive.
    change (DDRC (emit [W_SCL_MODE_OUTPUT; W_SDA_MODE_OUTPUT; W_SCL_high; W_SDA_high] s))
      with (reg_set SDA_PIN (reg_set SCL_PIN (DDRC s))).
    apply testbit_reg_set_same. unfold SDA_PIN. lia.
Qed.

(** ** What the driver never touches *)

(** X2. No public method disturbs the other six pins of port C: every bit
    of [PORTC] and [DDRC] other than bits 5 and 4 is left as it was. *)
Theorem other_pins_untouched (font6x8 font8x16 : array) (op : public_op)
  (s : state) (n : Z) :
  0 <= n < 8 -> n <> SCL_PIN -> n <> SDA_PIN ->
  Z.testbit (PORTC (run font6x8 font8x16 op s)) n = Z.testbit (PORTC s) n /\
  Z.testbit (DDRC (run font6x8 font8x16 op s)) n = Z.testbit (DDRC s) n.
Proof.
  intros Hn N5 N4. destruct op.
  3: { split; reflexivity. }
  all: match goal with
       | |- context [run _ _ ?o] =>
           destruct (run_emit font6x8 font8x16 o s) as [ws E];
           [intros; discriminate |];
           rewrite E; apply emit_other_bits; assumption
       end.
Qed.

Lemma other_pins_untouched_witness :
  Z.testbit (PORTC (run offset_table offset_table (Sleep true)
                      (SSD1306Display 0x05 0x3A))) 3 =
  Z.testbit (PORTC (SSD1306Display 0x05 0x3A)) 3 /\
  Z.testbit (DDRC (run offset_table offset_table (Sleep true)
                     (SSD1306Display 0x05 0x3A))) 3 =
  Z.testbit (DDRC (SSD1306Display 0x05 0x3A)) 3.
Proof.
  exact (other_pins_untouched offset_table offset_table (Sleep true)
           (SSD1306Display 0x05 0x3A) 3 ltac:(lia)
           ltac:(unfold SCL_PIN; lia) ltac:(unfold SDA_PIN; lia)).
Defined.

(** X3. The data-invert flag is changed by [invertData] alone: every other
    public method returns with the flag it was called with, and
    [invertData b] returns with [b]. *)
Theorem flag_only_set_by_invertData (font6x8 font8x16 : array) (op : public_op)
  (s : state) :
  fInvertData (run font6x8 font8x16 op s) =
  match op with
  | InvertData b => b
  | _ => fInvertData s
  end.
Proof.
  destruct op.
  3: { reflexivity. }
  all: match goal with
       | |- context [run _ _ ?o] =>
           destruct (run_emit font6x8 font8x16 o s) as [ws E];
           [intros; discriminate |];
           rewrite E; apply fInvertData_emit
       end.
Qed.

(** X4. The driver keeps no cursor or other history: what a public method
    puts on the wire depends on its arguments and on the data-invert flag
    only, not on the registers or on anything sent before. *)
Theorem sent_depends_on_flag_only (font6x8 font8x16 : array) (op : public_op)
  (s s' : state) :
  fInvertData s = fInvertData s' ->
  sent (run font6x8 font8x16 op) s = sent (run font6x8 font8x16 op) s'.
Proof.
  intros E. destruct op.
  1: { cbn [run].
       now rewrite (sent_emit _ _ _ (initialize_emit s)),
                   (sent_emit _ _ _ (initialize_emit s')). }
  2: { cbn [run]. now rewrite !sent_invertData. }
  all: match goal with
       | |- context [run _ _ ?o] =>
           destruct (framed_frames font6x8 font8x16 o eq_refl) as [fs F];
           rewrite (frames_of_sent _ _ s F), (frames_of_sent _ _ s' F), E;
           reflexivity
       end.
Qed.

Lemma sent_depends_on_flag_only_witness :
  sent (run offset_table offset_table (Text 1 0 "A")) idle_display =
  sent (run offset_table offset_table (Text 1 0 "A"))
    (run offset_table offset_table (FillScreen 0) (SSD1306Display 0xFF 0xFF)).
Proof.
  exact (sent_depends_on_flag_only offset_table offset_table (Text 1 0 "A")
           idle_display
           (run offset_table offset_table (FillScreen 0) (SSD1306Display 0xFF 0xFF))
           eq_refl).
Defined.

(** ** Calls in sequence *)

(** X5. Two frame-sending methods called one after the other put on the
    link the frames of the first followed by the frames of the second:
    nothing is merged, dropped or left open between calls. *)
Theorem frames_concatenate (font6x8 font8x16 : array) (op1 op2 : public_op)
  (s : state) :
  framed op1 = true -> framed op2 = true ->
  on_link (run font6x8 font8x16 op1 ;; run font6x8 font8x16 op2) s =
  on_link (run font6x8 font8x16 op1) s ++
  on_link (run font6x8 font8x16 op2) (run font6x8 font8x16 op1 s).
Proof.
  intros H1 H2.
  destruct (framed_frames font6x8 font8x16 op1 H1) as [fs1 F1].
  destruct (framed_frames font6x8 font8x16 op2 H2) as [fs2 F2].
  rewrite (frames_of_on_link _ _ s (frames_of_seq _ _ _ _ F1 F2)).
  rewrite (frames_of_on_link _ _ s F1), (frames_of_on_link _ _ _ F2).
  rewrite (F1 s), fInvertData_emit. apply map_app.
Qed.

Lemma frames_concatenate_witness :
  on_link (run offset_table offset_table (SetContrast 9) ;;
           run offset_table offset_table (Sleep false)) idle_display =
  [[0x78; 0x00; 0x81; 9]; [0x78; 0x00; 0xAF]].
Proof.
  exact (frames_concatenate offset_table offset_table (SetContrast 9) (Sleep false)
           idle_display eq_refl eq_refl).
Defined.

(** ** Mode commands *)

Lemma ssd1306SendCommand_frames (b : Z) :
  frames_of (ssd1306SendCommand b) [Command [b]].
Proof. apply frames_of_command, sends_byte. Qed.

Lemma setContrast_frames (level : Z) :
  frames_of (setContrast level) [Command [CMD_SET_CONTRAST; level]].
Proof.
  apply (frames_of_ext
           (ssd1306CmdBegin ;;
            (i2cSendByte CMD_SET_CONTRAST ;; i2cSendByte level) ;;
            ssd1306CmdEnd)); [intros s; unfold seq; reflexivity|].
  apply frames_of_command.
  apply (sends_seq _ _ [CMD_SET_CONTRAST] [level]); apply sends_byte.
Qed.

(** X6. Whatever the data-invert flag and the state of the lines,
    [setContrast] is heard as one command frame with the opcode [0x81] and
    the level as its argument, and [invertScreen] and [sleep] as one command
    frame with a single opcode: [0xA7]/[0xA6] and [0xAE]/[0xAF]. *)
Theorem mode_commands_link (level : Z) (b : bool) (s : state) :
  is_u8 level ->
  on_link (setContrast level) s = [[0x78; 0x00; 0x81; level]] /\
  on_link (invertScreen b) s = [[0x78; 0x00; if b then 0xA7 else 0xA6]] /\
  on_link (sleep b) s = [[0x78; 0x00; if b then 0xAE else 0xAF]].
Proof.
  intros Hl. unfold is_u8 in Hl. split; [|split].
  - rewrite (frames_of_on_link _ _ s (setContrast_frames level)).
    cbn [map encode command_frame]. rewrite (u8_small level) by lia. reflexivity.
  - unfold invertScreen.
    rewrite (frames_of_on_link _ _ s (ssd1306SendCommand_frames _)).
    destruct b; reflexivity.
  - unfold sleep.
    rewrite (frames_of_on_link _ _ s (ssd1306SendCommand_frames _)).
    destruct b; reflexivity.
Qed.

Lemma mode_commands_link_witness :
  on_link (setContrast 200) idle_display = [[0x78; 0x00; 0x81; 200]].
Proof.
  exact (proj1 (mode_commands_link 200 true idle_display
                  ltac:(unfold is_u8; lia))).
Defined.

(** ** Pin writes that change nothing *)

Lemma reg_set_kept (pin reg : Z) :
  0 <= pin < 8 -> 0 <= reg <= 255 -> Z.testbit reg pin = true ->
  reg_set pin reg = reg.
Proof.
  intros Hp Hr Hb. unfold reg_set.
  replace (Z.lor reg (Z.shiftl 1 pin)) with reg; [apply u8_small, Hr|].
  apply Z.bits_inj'. intros n Hn.
  rewrite Z.lor_spec, Z.shiftl_1_l, Z.pow2_bits_eqb by lia.
  destruct (Z.eqb_spec pin n) as [<-|]; [rewrite Hb|]; auto using orb_false_r.
Qed.

Lemma reg_clear_kept (pin reg : Z) :
  0 <= pin < 8 -> 0 <= reg <= 255 -> Z.testbit reg pin = false ->
  reg_clear pin reg = reg.
Proof.
  intros Hp Hr Hb. unfold reg_clear.
  replace (Z.land reg (Z.lnot (Z.shiftl 1 pin))) with reg; [apply u8_small, Hr|].
  apply Z.bits_inj'. intros n Hn.
  rewrite Z.land_spec, Z.lnot_spec, Z.shiftl_1_l, Z.pow2_bits_eqb by lia.
  destruct (Z.eqb_spec pin n) as [<-|]; [rewrite Hb|]; auto using andb_true_r.
Qed.

(** X7. On idle lines the first two pin writes of [i2cSendBegin] leave port
    C as it is, so the first change on the link is DATA falling; and with
    CLOCK low, as it is inside a frame, the first pin write of [i2cSendEnd]
    leaves port C as it is. *)
Theorem redundant_pin_writes (s : state) :
  0 <= PORTC s <= 255 ->
  (scl_level s = true -> sda_level s = true ->
   PORTC (SDA_high (SCL_high s)) = PORTC s /\
   PORTC (i2cSendBegin s) = reg_clear SCL_PIN (reg_clear SDA_PIN (PORTC s))) /\
  (scl_level s = false ->
   PORTC (SCL_low s) = PORTC s /\
   PORTC (i2cSendEnd s) =
     reg_set SDA_PIN (reg_set SCL_PIN (reg_clear SDA_PIN (PORTC s)))).
Proof.
  intros Hr. unfold scl_level, sda_level. split.
  - intros Hc Hd.
    assert (PORTC (SDA_high (SCL_high s)) = PORTC s) as E.
    { cbn [SDA_high SCL_high PORTC log set_PORTC].
      rewrite (reg_set_kept SCL_PIN) by (unfold SCL_PIN; auto; lia).
      apply reg_set_kept; unfold SDA_PIN; auto; lia. }
    split; [exact E|].
    change (PORTC (i2cSendBegin s))
      with (reg_clear SCL_PIN (reg_clear SDA_PIN (PORTC (SDA_high (SCL_high s))))).
    now rewrite E.
  - intros Hc.
    assert (PORTC (SCL_low s) = PORTC s) as E.
    { cbn [SCL_low PORTC log set_PORTC].
      apply reg_clear_kept; unfold SCL_PIN; auto; lia. }
    split; [exact E|].
    change (PORTC (i2cSendEnd s))
      with (reg_set SDA_PIN (reg_set SCL_PIN (reg_clear SDA_PIN (PORTC (SCL_low s))))).
    now rewrite E.
Qed.

Lemma redundant_pin_writes_witness :
  PORTC (SDA_high (SCL_high idle_display)) = PORTC idle_display /\
  PORTC (i2cSendBegin idle_display) =
    reg_clear SCL_PIN (reg_clear SDA_PIN (PORTC idle_display)).
Proof.
  exact (proj1 (redundant_pin_writes idle_display ltac:(cbn; lia)) eq_refl eq_refl).
Defined.

(** ** Glyph indices *)

(** X8. For every character from the space to code 127, [text] and
    [text2x] index the glyph table with the code minus 32, up to ['{'] in
    [text] and up to ['}'] in [text2x], and with 0 above that: the index
    never exceeds 91 in [text] and 93 in [text2x], and the two methods
    differ exactly on ['|'] and ['}']. *)
Theorem printable_glyph_index (ch : Z) :
  32 <= ch <= 127 ->
  text_c ch = (if ch <=? 123 then ch - 32 else 0) /\
  text2x_c ch = (if ch <=? 125 then ch - 32 else 0) /\
  0 <= text_c ch <= 91 /\ 0 <= text2x_c ch <= 93 /\
  (text_c ch = text2x_c ch <-> ch <> 124 /\ ch <> 125).
Proof.
  intros H. unfold text_c, text2x_c.
  change (char_value "{") with 123. change (char_value "}") with 125.
  rewrite (u8_small (ch - 32)) by lia.
  destruct (Z.gtb_spec ch 123), (Z.gtb_spec ch 125),
    (Z.leb_spec ch 123), (Z.leb_spec ch 125); try lia.
  all: repeat split; try lia.
Qed.

Lemma printable_glyph_index_witness :
  text_c (char_value "|") = 0 /\ text2x_c (char_value "|") = 92.
Proof.
  pose proof (printable_glyph_index (char_value "|") ltac:(cbn; lia)) as H.
  split; [exact (proj1 H) | exact (proj1 (proj2 H))].
Defined.

(** ** Filling *)

Lemma fillAreaWithByte_cols_full (cols b col : Z) (s : state) :
  128 <= cols ->
  fillAreaWithByte_cols 0 cols b col s = fillScreen_cols b col s.
Proof.
  intros H. revert col s.
  apply (loops_agree (below NUM_COLUMNS) (fun col => col <? NUM_COLUMNS)
           (fun col => u8 (col + 1)) (fun _ => ssd1306DataPutByte b)).
  - intros col s. rewrite fillAreaWithByte_cols_step.
    replace ((col <? 0 + cols) && (col <? NUM_COLUMNS)) with (col <? NUM_COLUMNS);
      [reflexivity|].
    unfold NUM_COLUMNS.
    destruct (Z.ltb_spec col 128), (Z.ltb_spec col (0 + cols)); try reflexivity; lia.
  - intros col s. apply fillScreen_cols_step.
  - still_below.
Qed.

Lemma fillAreaWithByte_rows_full (rows cols b row : Z) (s : state) :
  8 <= rows -> 128 <= cols ->
  fillAreaWithByte_rows 0 0 rows cols b row s = fillScreen_rows b row s.
Proof.
  intros Hr Hc. revert row s.
  apply (loops_agree (below NUM_ROWS) (fun row => row <? NUM_ROWS)
           (fun row => u8 (row + 1))
           (fun row => setPosition row 0 ;; ssd1306DataBegin ;;
                       fillScreen_cols b 0 ;; ssd1306DataEnd)).
  - intros row s. rewrite fillAreaWithByte_rows_step.
    replace ((row <? 0 + rows) && (row <? NUM_ROWS)) with (row <? NUM_ROWS).
    + unfold seq. rewrite fillAreaWithByte_cols_full by assumption. reflexivity.
    + unfold NUM_ROWS.
      destruct (Z.ltb_spec row 8), (Z.ltb_spec row (0 + rows)); try reflexivity; lia.
  - intros row s. apply fillScreen_rows_step.
  - still_below.
Qed.

Lemma fillAreaWithByte_full (rows cols b : Z) (s : state) :
  8 <= rows -> 128 <= cols ->
  fillAreaWithByte 0 0 rows cols b s = fillScreen b s.
Proof.
  intros Hr Hc. unfold fillAreaWithByte, fillScreen.
  apply fillAreaWithByte_rows_full; assumption.
Qed.

(** X9. [fillAreaWithByte] from the top left corner with at least 8 rows
    and at least 128 columns returns the very state [fillScreen] returns
    for the same byte; in particular [fillAreaWithByte(0, 0, 8, 128, b)] is
    [fillScreen(b)]. *)
Theorem fillAreaWithByte_whole_screen (rows columns b : Z) (s : state) :
  8 <= rows -> 128 <= columns ->
  fillAreaWithByte 0 0 rows columns b s = fillScreen b s /\
  on_link (fillAreaWithByte 0 0 rows columns b) s = on_link (fillScreen b) s.
Proof.
  intros Hr Hc. split.
  - apply fillAreaWithByte_full; assumption.
  - apply on_link_same, fillAreaWithByte_full; assumption.
Qed.

Lemma fillAreaWithByte_whole_screen_witness :
  fillAreaWithByte 0 0 8 128 0x55 idle_display = fillScreen 0x55 idle_display.
Proof.
  exact (proj1 (fillAreaWithByte_whole_screen 8 128 0x55 idle_display
                  ltac:(lia) ltac:(lia))).
Defined.

Lemma upto_rows_in (sr stop row : Z) :
  0 <= sr -> In row (upto sr (Z.min stop 8)) -> 0 <= row < 8.
Proof. intros H I. apply in_upto in I. lia. Qed.

Lemma const_upto (b start stop : Z) :
  map (fun _ => b) (upto start stop) = repeat b (Z.to_nat (stop - start)).
Proof.
  rewrite <- upto_length. induction (upto start stop) as [|x l IH]; [reflexivity|].
  cbn. now rewrite IH.
Qed.

(** X10. [fillAreaWithByte] clips the rectangle to the screen: for a start
    column on the screen, it sends, for every row from [startRow] to
    [min (startRow + rows) 8 - 1], the position command of that row at
    [startColumn] and one data frame holding the fill byte (complemented
    when data-invert is on) [min columns (128 - startColumn)] times. *)
Theorem fillAreaWithByte_clipped (startRow startColumn rows columns b : Z)
  (s : state) :
  0 <= startRow -> 0 <= startColumn <= 127 ->
  on_link (fillAreaWithByte startRow startColumn rows columns b) s =
  flat_map
    (fun row =>
       [command_frame (position_bytes row startColumn);
        data_frame (repeat (put (fInvertData s) b)
                      (Z.to_nat (Z.min columns (128 - startColumn))))])
    (upto startRow (Z.min (startRow + rows) 8)).
Proof.
  intros Hsr Hsc.
  rewrite (frames_of_on_link _ _ s
             (fillAreaWithByte_frames_of startRow startColumn rows columns b
                Hsr (proj1 Hsc))).
  unfold fillAreaWithByte_frames, NUM_ROWS, NUM_COLUMNS.
  rewrite rows_on_link by (try lia; intros row; apply upto_rows_in; lia).
  apply flat_map_agree. intros row _. rewrite const_upto, map_repeat.
  replace (Z.min (startColumn + columns) 128 - startColumn)
    with (Z.min columns (128 - startColumn)) by lia.
  reflexivity.
Qed.

Lemma fillAreaWithByte_clipped_witness :
  on_link (fillAreaWithByte 7 126 4 9 0x0F) (invertData true idle_display) =
  [[0x78; 0x00; 0xB7; 0x17; 0x0E]; [0x78; 0x40; 0xF0; 0xF0]].
Proof.
  exact (fillAreaWithByte_clipped 7 126 4 9 0x0F (invertData true idle_display)
           ltac:(lia) ltac:(lia)).
Defined.

(** X11. [fillScreen] is heard as sixteen frames: for each of the rows 0
    to 7, the position command of column 0 of that row and one data frame
    of 128 copies of the fill byte (complemented when data-invert is on),
    1024 payload bytes in all. *)
Theorem fillScreen_link (fillByte : Z) (s : state) :
  on_link (fillScreen fillByte) s =
    flat_map
      (fun row =>
         [command_frame (position_bytes row 0);
          data_frame (repeat (put (fInvertData s) fillByte) 128)])
      [0; 1; 2; 3; 4; 5; 6; 7] /\
  List.length (on_link (fillScreen fillByte) s) = 16%nat /\
  List.length (data_payload (on_link (fillScreen fillByte) s)) = 1024%nat.
Proof.
  assert (on_link (fillScreen fillByte) s =
          flat_map
            (fun row =>
               [command_frame (position_bytes row 0);
                data_frame (repeat (put (fInvertData s) fillByte) 128)])
            [0; 1; 2; 3; 4; 5; 6; 7]) as E.
  { rewrite <- (on_link_same _ _ s
                  (fillAreaWithByte_full 8 128 fillByte s ltac:(lia) ltac:(lia))).
    rewrite (frames_of_on_link _ _ s
               (fillAreaWithByte_frames_of 0 0 8 128 fillByte
                  ltac:(lia) ltac:(lia))).
    unfold fillAreaWithByte_frames, NUM_ROWS, NUM_COLUMNS.
    rewrite rows_on_link by (try lia; intros row; apply upto_rows_in; lia).
    rewrite const_upto, map_repeat. reflexivity. }
  rewrite E. split; [reflexivity|]. split; [reflexivity|].
  rewrite rows_data_payload.
  rewrite (flat_map_length_const _ _ 128); [reflexivity|].
  intros row. apply repeat_length.
Qed.

(** ** Images and patterns *)

(** X12. [drawImage] clips the image to the screen without losing its
    place in the source: for a start column on the screen, display row
    [startRow + i] gets the position command and one data frame with the
    bytes [image[i * imageColumns + j]] for [j] from 0 to
    [min imageColumns (128 - startColumn) - 1], for every [i] below
    [min imageRows (8 - startRow)]; the bytes of the columns cut off on the
    right are skipped, not carried over to the next row. *)
Theorem drawImage_clipped (startRow startColumn imageRows imageColumns : Z)
  (image : array) (s : state) :
  0 <= startRow -> 0 <= startColumn <= 127 ->
  on_link (drawImage startRow startColumn imageRows imageColumns image) s =
  flat_map
    (fun i =>
       [command_frame (position_bytes (startRow + i) startColumn);
        data_frame
          (map (fun j => put (fInvertData s) (image (i * imageColumns + j)))
             (upto 0 (Z.min imageColumns (128 - startColumn))))])
    (upto 0 (Z.min imageRows (8 - startRow))).
Proof.
  intros Hsr Hsc.
  rewrite (frames_of_on_link _ _ s
             (drawImage_frames_of startRow startColumn imageRows imageColumns
                image Hsr (proj1 Hsc))).
  unfold drawImage_frames, NUM_ROWS, NUM_COLUMNS.
  rewrite rows_on_link by (try lia; intros row; apply upto_rows_in; lia).
  replace (Z.min (startRow + imageRows) 8)
    with (startRow + Z.min imageRows (8 - startRow)) by lia.
  replace (Z.min (startColumn + imageColumns) 128)
    with (startColumn + Z.min imageColumns (128 - startColumn)) by lia.
  rewrite !upto_shift, flat_map_over_map.
  apply flat_map_agree. intros i _. rewrite !map_map.
  do 3 f_equal. apply map_ext. intros j. do 2 f_equal. lia.
Qed.

Lemma drawImage_clipped_witness :
  on_link (drawImage 7 126 2 4 offset_table) idle_display =
  [[0x78; 0x00; 0xB7; 0x17; 0x0E]; [0x78; 0x40; 0; 1]].
Proof.
  exact (drawImage_clipped 7 126 2 4 offset_table idle_display
           ltac:(lia) ltac:(lia)).
Defined.

Lemma pattern_index_next (size k : Z) :
  1 <= size -> 0 <= k ->
  (if k mod size + 1 >=? size then 0 else k mod size + 1) = (k + 1) mod size.
Proof.
  intros Hs Hk. pose proof (Z.mod_pos_bound k size ltac:(lia)) as B.
  rewrite <- (Z.add_mod_idemp_l k 1 size) by lia.
  destruct (Z.geb_spec (k mod size + 1) size).
  - replace (k mod size + 1) with size by lia. symmetry. apply Z_mod_same_full.
  - symmetry. apply Z.mod_small. lia.
Qed.

Lemma fillAreaWithBytes_cols_closed (sc cols : Z) (pattern : array) (size : Z) :
  1 <= size -> 0 <= sc ->
  streams (fillAreaWithBytes_cols sc cols pattern size 0 sc)
    (map (fun col => pattern ((col - sc) mod size))
       (upto sc (Z.min (sc + cols) NUM_COLUMNS))).
Proof.
  intros Hsize Hsc. rewrite <- flat_map_single.
  apply (streams_ext
           ((fun col => fillAreaWithBytes_cols sc cols pattern size
                          ((col - sc) mod size) col) sc)).
  { intros s. cbv beta. replace (sc - sc) with 0 by lia.
    rewrite Z.mod_0_l by lia. reflexivity. }
  assert (forall i, sc <= i ->
            streams ((fun col => fillAreaWithBytes_cols sc cols pattern size
                                   ((col - sc) mod size) col) i)
              (flat_map (fun col => [pattern ((col - sc) mod size)])
                 (upto i (Z.min (sc + cols) NUM_COLUMNS)))) as G;
    [|apply G; lia].
  intros i Hi.
  remember (Z.to_nat (Z.min (sc + cols) NUM_COLUMNS - i)) as n eqn:En.
  revert i Hi En. induction n as [|n IH]; intros i Hi En.
  - rewrite upto_nil by lia. apply (streams_ext skip); [|apply streams_skip].
    intros s. cbv beta. rewrite fillAreaWithBytes_cols_step, ltb_min.
    destruct (Z.ltb_spec i (Z.min (sc + cols) NUM_COLUMNS)); [lia | reflexivity].
  - rewrite upto_cons by lia. cbn [flat_map].
    apply (streams_ext
             (ssd1306DataPutByte (pattern ((i - sc) mod size)) ;;
              (fun col => fillAreaWithBytes_cols sc cols pattern size
                            ((col - sc) mod size) col) (i + 1))).
    + intros s. cbv beta. rewrite fillAreaWithBytes_cols_step, ltb_min.
      destruct (Z.ltb_spec i (Z.min (sc + cols) NUM_COLUMNS)) as [L|]; [|lia].
      rewrite u8_small by (unfold NUM_COLUMNS in L; lia).
      rewrite pattern_index_next by lia.
      replace (i - sc + 1) with (i + 1 - sc) by lia. reflexivity.
    + apply (streams_seq _ _ [_] _); [apply streams_put | apply IH; lia].
Qed.

Lemma fillAreaWithBytes_frames_of (sr sc rows cols : Z) (pattern : array)
  (size : Z) :
  1 <= size -> 0 <= sr -> 0 <= sc ->
  frames_of (fillAreaWithBytes sr sc rows cols pattern size)
    (flat_map
       (fun row =>
          setPosition_frames row sc ++
          [Data (map (fun col => pattern ((col - sc) mod size))
                   (upto sc (Z.min (sc + cols) NUM_COLUMNS)))])
       (upto sr (Z.min (sr + rows) NUM_ROWS))).
Proof.
  intros Hsize Hsr Hsc. unfold fillAreaWithBytes.
  apply (counted_loop frames_of frames_of_ext frames_of_skip frames_of_seq
           (Z.min (sr + rows) NUM_ROWS)
           (fun row => setPosition row sc ;; ssd1306DataBegin ;;
                       fillAreaWithBytes_cols sc cols pattern size 0 sc ;;
                       ssd1306DataEnd)
           (fillAreaWithBytes_rows sr sc rows cols pattern size)); [| | lia].
  - intros i s Hi. rewrite fillAreaWithBytes_rows_step, ltb_min.
    destruct (Z.ltb_spec i (Z.min (sr + rows) NUM_ROWS)) as [L|]; [|reflexivity].
    rewrite u8_small by (unfold NUM_ROWS in L; lia). reflexivity.
  - intros i Hi. apply row_frames, fillAreaWithBytes_cols_closed; assumption.
Qed.

(** X13. [fillAreaWithBytes] repeats the pattern along each row and starts
    it again at the first byte on every row: for a pattern size of at least
    1 and a start column on the screen, the byte sent for the [j]-th column
    of every row of the clipped rectangle is [pattern[j mod patternSize]]. *)
Theorem fillAreaWithBytes_pattern (startRow startColumn rows columns : Z)
  (pattern : array) (patternSize : Z) (s : state) :
  1 <= patternSize -> 0 <= startRow -> 0 <= startColumn <= 127 ->
  on_link (fillAreaWithBytes startRow startColumn rows columns pattern patternSize) s =
  flat_map
    (fun row =>
       [command_frame (position_bytes row startColumn);
        data_frame
          (map (fun j => put (fInvertData s) (pattern (j mod patternSize)))
             (upto 0 (Z.min columns (128 - startColumn))))])
    (upto startRow (Z.min (startRow + rows) 8)).
Proof.
  intros Hsize Hsr Hsc.
  rewrite (frames_of_on_link _ _ s
             (fillAreaWithBytes_frames_of startRow startColumn rows columns
                pattern patternSize Hsize Hsr (proj1 Hsc))).
  unfold NUM_ROWS, NUM_COLUMNS.
  rewrite rows_on_link by (try lia; intros row; apply upto_rows_in; lia).
  replace (Z.min (startColumn + columns) 128)
    with (startColumn + Z.min columns (128 - startColumn)) by lia.
  rewrite upto_shift.
  apply flat_map_agree. intros row _. rewrite !map_map.
  do 3 f_equal. apply map_ext. intros j. do 3 f_equal. lia.
Qed.

Lemma fillAreaWithBytes_pattern_witness :
  on_link (fillAreaWithBytes 6 123 2 9 (table [0xFF; 0x00; 0x81]) 3) idle_display =
  [[0x78; 0x00; 0xB6; 0x17; 0x0B]; [0x78; 0x40; 0xFF; 0x00; 0x81; 0xFF; 0x00];
   [0x78; 0x00; 0xB7; 0x17; 0x0B]; [0x78; 0x40; 0xFF; 0x00; 0x81; 0xFF; 0x00]].
Proof.
  exact (fillAreaWithBytes_pattern 6 123 2 9 (table [0xFF; 0x00; 0x81]) 3
           idle_display ltac:(lia) ltac:(lia) ltac:(lia)).
Defined.

Lemma fillAreaWithBytes_cols_size0 (sc cols : Z) (pattern : array) (col : Z)
  (s : state) :
  fillAreaWithBytes_cols sc cols pattern 0 0 col s =
  fillAreaWithBytes_cols sc cols pattern 1 0 col s.
Proof.
  revert col s.
  apply (loops_agree (below NUM_COLUMNS)
           (fun col => (col <? sc + cols) && (col <? NUM_COLUMNS))
           (fun col => u8 (col + 1))
           (fun _ => ssd1306DataPutByte (pattern 0))).
  - intros col s. rewrite fillAreaWithBytes_cols_step. reflexivity.
  - intros col s. rewrite fillAreaWithBytes_cols_step. reflexivity.
  - still_below.
Qed.

(** X14. A pattern size of 0 does not stall or fault [fillAreaWithBytes]:
    the pattern index is reset after every byte, so the call returns the
    very state it returns for pattern size 1, every byte sent being
    [pattern[0]]. *)
Theorem fillAreaWithBytes_size_zero (startRow startColumn rows columns : Z)
  (pattern : array) (s : state) :
  fillAreaWithBytes startRow startColumn rows columns pattern 0 s =
    fillAreaWithBytes startRow startColumn rows columns pattern 1 s /\
  fillAreaWithBytes startRow startColumn rows columns pattern 0 s =
    fillAreaWithByte startRow startColumn rows columns (pattern 0) s.
Proof.
  assert (fillAreaWithBytes startRow startColumn rows columns pattern 0 s =
          fillAreaWithBytes startRow startColumn rows columns pattern 1 s) as E.
  { unfold fillAreaWithBytes. revert s. generalize startRow at 2 4.
    apply (loops_agree (below NUM_ROWS)
             (fun row => (row <? startRow + rows) && (row <? NUM_ROWS))
             (fun row => u8 (row + 1))
             (fun row => setPosition row startColumn ;; ssd1306DataBegin ;;
                         fillAreaWithBytes_cols startColumn columns pattern 1 0
                           startColumn ;;
                         ssd1306DataEnd)).
    - intros row s. rewrite fillAreaWithBytes_rows_step. unfold seq.
      rewrite fillAreaWithBytes_cols_size0. reflexivity.
    - intros row s. apply fillAreaWithBytes_rows_step.
    - still_below. }
  split; [exact E|]. rewrite E. unfold fillAreaWithBytes, fillAreaWithByte.
  apply fillAreaWithBytes_rows_one.
Qed.

(** ** Text *)

Lemma map_u8_put (inv : bool) (l : list Z) :
  map u8 (map (put inv) l) = map (put inv) l.
Proof. rewrite map_map. apply map_ext. intros b. apply u8_put. Qed.

Lemma fits_more (col : Z) :
  (col <= 128 - 6 -> fits 6 col = S (fits 6 (col + 6))) /\
  (col <= 128 - 8 -> fits 8 col = S (fits 8 (col + 8))).
Proof. unfold fits, NUM_COLUMNS. split; intros H; Z.div_mod_to_equations; lia. Qed.

Lemma fits_none (col : Z) :
  (128 - 6 < col -> fits 6 col = 0%nat) /\ (128 - 8 < col -> fits 8 col = 0%nat).
Proof. unfold fits, NUM_COLUMNS. split; intros H; Z.div_mod_to_equations; lia. Qed.

Lemma fits_at_most (col : Z) :
  0 <= col -> (fits 6 col <= 21)%nat /\ (fits 8 col <= 16)%nat.
Proof. unfold fits, NUM_COLUMNS. split; Z.div_mod_to_equations; lia. Qed.

Lemma text_payload_closed (font : array) (str : string) (col : Z) :
  0 <= col ->
  text_payload font str col =
  flat_map (fun ch => glyph6 font (text_c ch)) (firstn (fits 6 col) (c_chars str)).
Proof.
  revert col. induction str as [|a str IH]; intros col Hcol.
  - cbn. rewrite firstn_nil. destruct (col <=? NUM_COLUMNS - 6); reflexivity.
  - cbn [text_payload c_chars deref]. unfold NUM_COLUMNS.
    destruct (Z.eqb_spec (char_value a) 0) as [Z0|NZ]; cbn [negb andb].
    + now rewrite firstn_nil.
    + destruct (Z.leb_spec col (128 - 6)).
      * rewrite (proj1 (fits_more col)) by assumption. cbn [firstn flat_map].
        rewrite u8_small by lia. rewrite IH by lia. reflexivity.
      * rewrite (proj1 (fits_none col)) by assumption. reflexivity.
Qed.

Lemma text2x_glyph_closed (font : array) (half c : Z) :
  streams (text2x_glyph font half c 0) (glyph8 font half c).
Proof.
  unfold glyph8. rewrite <- flat_map_single.
  apply (counted_loop streams streams_ext streams_skip streams_seq 8
           (fun ix => ssd1306DataPutByte (pgm_read_byte font (c * 16 + half + ix)))
           (text2x_glyph font half c)); [| intros; apply streams_put | lia].
  intros i s Hi. apply text2x_glyph_step.
Qed.

Lemma text2x_loop_closed (font : array) (half : Z) (str : string) (col : Z) :
  0 <= col ->
  streams (text2x_loop font half str col)
    (flat_map (fun ch => glyph8 font half (text2x_c ch))
       (firstn (fits 8 col) (c_chars str))).
Proof.
  revert col. induction str as [|a str IH]; intros col Hcol.
  - cbn [c_chars]. rewrite firstn_nil. intros s. cbn.
    destruct (col <=? NUM_COLUMNS - 8); reflexivity.
  - cbn [text2x_loop c_chars deref]. unfold NUM_COLUMNS.
    destruct (Z.eqb_spec (char_value a) 0) as [Z0|NZ]; cbn [negb andb].
    + rewrite firstn_nil. apply streams_skip.
    + destruct (Z.leb_spec col (128 - 8)).
      * rewrite (proj2 (fits_more col)) by assumption. cbn [firstn flat_map].
        rewrite u8_small by lia.
        apply (streams_seq _ _ _ _ (text2x_glyph_closed font half _)).
        apply IH. lia.
      * rewrite (proj2 (fits_none col)) by assumption. apply streams_skip.
Qed.

Lemma text2x_frames_of (font : array) (row column : Z) (str : string) :
  0 <= column ->
  frames_of (text2x font row column str)
    (if row >? NUM_ROWS - 2 then []
     else (setPosition_frames row column ++
           [Data (flat_map (fun ch => glyph8 font 0 (text2x_c ch))
                    (firstn (fits 8 column) (c_chars str)))]) ++
          (setPosition_frames (u8 (row + 1)) column ++
           [Data (flat_map (fun ch => glyph8 font 8 (text2x_c ch))
                    (firstn (fits 8 column) (c_chars str)))])).
Proof.
  intros Hc. unfold text2x. destruct (row >? NUM_ROWS - 2).
  - apply frames_of_skip.
  - apply (frames_of_ext
             ((setPosition row column ;; ssd1306DataBegin ;;
               text2x_loop font 0 str column ;; ssd1306DataEnd) ;;
              (setPosition (u8 (row + 1)) column ;; ssd1306DataBegin ;;
               text2x_loop font 8 str column ;; ssd1306DataEnd)));
      [intros s; unfold seq; reflexivity|].
    apply frames_of_seq; apply row_frames, text2x_loop_closed, Hc.
Qed.

(** X15. [text] clips the string at the right edge: on a screen row and
    column it sends the position command and one data frame with the six
    table bytes of each of the first [(128 - column) / 6] characters of the
    string, in order, and of no other; that is at most 21 glyphs. *)
Theorem text_clipped (font : array) (row column : Z) (str : string) (s : state) :
  0 <= row <= 7 -> 0 <= column <= 127 ->
  let drawn := firstn (fits 6 column) (c_chars str) in
  on_link (text font row column str) s =
    [command_frame (position_bytes row column);
     data_frame
       (map (put (fInvertData s))
          (flat_map (fun ch => glyph6 font (text_c ch)) drawn))] /\
  List.length drawn = Nat.min (fits 6 column) (List.length (c_chars str)) /\
  (List.length drawn <= 21)%nat.
Proof.
  intros Hr Hc drawn. split; [|split].
  - rewrite (frames_of_on_link _ _ s (text_frames_of font row column str)).
    unfold text_frames, NUM_ROWS.
    destruct (Z.gtb_spec row (8 - 1)); [lia|].
    rewrite setPosition_frames_in by lia.
    rewrite text_payload_closed by lia.
    cbn [map app encode]. rewrite command_frame_u8, data_frame_u8.
    rewrite position_bytes_u8 by lia. rewrite map_map.
    do 3 f_equal. apply map_ext. intros b. apply u8_put.
  - apply length_firstn.
  - unfold drawn. rewrite length_firstn.
    pose proof (proj1 (fits_at_most column ltac:(lia))). lia.
Qed.

Lemma text_clipped_witness :
  on_link (text offset_table 7 120 "AB") idle_display =
  [[0x78; 0x00; 0xB7; 0x17; 0x08]; [0x78; 0x40; 198; 199; 200; 201; 202; 203]].
Proof.
  exact (proj1 (text_clipped offset_table 7 120 "AB" idle_display
                  ltac:(lia) ltac:(lia))).
Defined.

(** X16. What [text] does is decided by the characters that fit: two
    strings whose first [(128 - column) / 6] characters before the NUL are
    the same are drawn alike, the call returning the very same state.  A
    string too long for the row is drawn as its prefix that fits. *)
Theorem text_same_prefix (font : array) (row column : Z) (str str' : string)
  (s : state) :
  0 <= column ->
  firstn (fits 6 column) (c_chars str) = firstn (fits 6 column) (c_chars str') ->
  text font row column str s = text font row column str' s.
Proof.
  intros Hc E.
  rewrite (text_frames_of font row column str s).
  rewrite (text_frames_of font row column str' s).
  unfold text_frames. rewrite !text_payload_closed by assumption.
  now rewrite E.
Qed.

Lemma text_same_prefix_witness :
  text offset_table 0 116 "Hello" idle_display =
  text offset_table 0 116 "He" idle_display.
Proof.
  exact (text_same_prefix offset_table 0 116 "Hello" "He" idle_display
           ltac:(lia) eq_refl).
Defined.

(** X17. [text2x] makes two passes over the same characters: on rows 0
    to 6 it sends the position command of [row] and a data frame with the
    upper eight bytes of each of the first [(128 - column) / 8] characters,
    then the position command of [row + 1] and a data frame with the lower
    eight bytes of the same characters.  On a row above 6 it returns at
    once: nothing is sent, not even the upper half on row 7. *)
Theorem text2x_link (font : array) (row column : Z) (str : string) (s : state) :
  0 <= row -> 0 <= column <= 127 ->
  let drawn := firstn (fits 8 column) (c_chars str) in
  if row <=? 6 then
    on_link (text2x font row column str) s =
      [command_frame (position_bytes row column);
       data_frame
         (map (put (fInvertData s))
            (flat_map (fun ch => glyph8 font 0 (text2x_c ch)) drawn));
       command_frame (position_bytes (row + 1) column);
       data_frame
         (map (put (fInvertData s))
            (flat_map (fun ch => glyph8 font 8 (text2x_c ch)) drawn))]
  else
    text2x font row column str s = s /\ sent (text2x font row column str) s = [].
Proof.
  intros Hr Hc drawn.
  pose proof (text2x_frames_of font row column str (proj1 Hc)) as F.
  unfold NUM_ROWS in F.
  destruct (Z.leb_spec row 6); destruct (Z.gtb_spec row (8 - 2)); try lia.
  - rewrite (frames_of_on_link _ _ s F).
    rewrite (u8_small (row + 1)) by lia.
    rewrite !setPosition_frames_in by lia.
    cbn [map app encode]. rewrite !command_frame_u8, !data_frame_u8.
    rewrite !position_bytes_u8 by lia. rewrite !map_u8_put. reflexivity.
  - split; [apply F | apply sent_unchanged, F].
Qed.

Lemma text2x_link_witness :
  on_link (text2x offset_table 6 120 "Hi") idle_display =
  [[0x78; 0x00; 0xB6; 0x17; 0x08];
   [0x78; 0x40; 128; 129; 130; 131; 132; 133; 134; 135];
   [0x78; 0x00; 0xB7; 0x17; 0x08];
   [0x78; 0x40; 136; 137; 138; 139; 140; 141; 142; 143]].
Proof.
  exact (text2x_link offset_table 6 120 "Hi" idle_display ltac:(lia) ltac:(lia)).
Defined.

(** ** Bytes on the wire *)

Lemma byte_ops_u8 (b : Z) : byte_ops (u8 b) = byte_ops b.
Proof.
  unfold byte_ops. cbn [flat_map]. rewrite !testbit_u8 by lia. reflexivity.
Qed.

(** X18. A byte clocked out bit by bit is the byte a receiver puts
    together: [ssd1306SendCommand b] is heard as one command frame whose
    single payload byte is [b] reduced to eight bits, and [i2cSendByte]
    makes the same pin writes for [b] as for [b mod 256]. *)
Theorem command_byte_round_trip (b : Z) (s : state) :
  on_link (ssd1306SendCommand b) s = [[0x78; 0x00; u8 b]] /\
  sent (i2cSendByte b) s = sent (i2cSendByte (u8 b)) s /\
  (0 <= b <= 255 -> on_link (ssd1306SendCommand b) s = [[0x78; 0x00; b]]).
Proof.
  assert (on_link (ssd1306SendCommand b) s = [[0x78; 0x00; u8 b]]) as E.
  { rewrite (frames_of_on_link _ _ s (ssd1306SendCommand_frames b)). reflexivity. }
  split; [exact E|]. split.
  - rewrite (sent_emit _ _ _ (i2cSendByte_emit b s)).
    rewrite (sent_emit _ _ _ (i2cSendByte_emit (u8 b) s)).
    symmetry. apply byte_ops_u8.
  - intros H. rewrite E, u8_small by assumption. reflexivity.
Qed.

Lemma command_byte_round_trip_witness :
  on_link (ssd1306SendCommand 0xA5) idle_display = [[0x78; 0x00; 0xA5]].
Proof.
  exact (proj2 (proj2 (command_byte_round_trip 0xA5 idle_display)) ltac:(lia)).
Defined.
